(** * QR Reader: validation, link detection and the decode life cycle

    A shallow embedding of [App.tsx] (the version with the jsQR decode
    pipeline).  The pure helpers ([validateFile], [isHttpUrl]) are plain
    functions; the component is a state machine whose state holds the six
    [useState] cells, the file input's value, the cleanup closures React
    keeps for the two [selectedFile] effects, and the browser resources the
    effects allocate (object URLs, [Image] loads in flight). *)

From stdpp Require Import gmap strings list fin_maps pretty.
From Stdlib Require Import NArith Ascii String.

Local Open Scope string_scope.

(** ** Files and validation *)

(** The fields of a DOM [File] that the component reads. *)
Record File := mkFile {
  file_name : string;
  file_type : string;
  file_size : N
}.

Definition MAX_FILE_SIZE_BYTES : N := 5 * 1024 * 1024.

Definition ACCEPTED_MIME_TYPES : gset string :=
  {[ "image/png"; "image/jpeg"; "image/webp" ]}.

(** [ACCEPTED_MIME_TYPES.has(t)]: membership by exact string equality. *)
Definition ACCEPTED_MIME_TYPES_has (t : string) : bool :=
  bool_decide (t ∈ ACCEPTED_MIME_TYPES).

Definition MSG_UNSUPPORTED_FORMAT : string :=
  "対応していない画像形式です。PNG / JPEG / WEBP のみ対応しています。".

Definition MSG_FILE_TOO_LARGE : string :=
  "画像サイズが大きすぎます。最大 5MB まで対応しています。".

(** [validateFile]: [Some msg] is the returned error string, [None] is [null]. *)
Definition validateFile (file : File) : option string :=
  if negb (ACCEPTED_MIME_TYPES_has (file_type file)) then
    Some MSG_UNSUPPORTED_FORMAT
  else if (MAX_FILE_SIZE_BYTES <? file_size file)%N then
    Some MSG_FILE_TOO_LARGE
  else None.

(** ** Link detection *)

(** What [isHttpUrl] reads of a parsed [URL] object. *)
Record URL := mkURL { protocol : string }.

Section LinkDetection.

(** [new URL(value)] is the browser's parser: [None] stands for the
    [TypeError] it throws on an unparsable string. *)
Variable URL_new : string -> option URL.

Definition isHttpUrl (value : string) : bool :=
  match URL_new value with
  | Some parsed =>
      String.eqb (protocol parsed) "http:" || String.eqb (protocol parsed) "https:"
  | None => false
  end.

End LinkDetection.

(** The scheme scan of the URL standard's basic parser (no base URL, no state
    override), used to state what a conforming [URL_new] reports as
    [protocol].  Leading and trailing C0 controls and spaces are stripped,
    ASCII tab and newline are removed, then the scheme start and scheme
    states run: an ASCII letter, then letters, digits, [+], [-] or [.], up
    to the first [:].  Anything else leaves no scheme, which without a base
    URL is a parse failure. *)
Module Whatwg.

Local Open Scope nat_scope.

Definition code (c : ascii) : nat := nat_of_ascii c.

Definition is_c0_or_space (c : ascii) : bool := code c <=? 32.

Definition is_tab_or_newline (c : ascii) : bool :=
  (code c =? 9) || (code c =? 10) || (code c =? 13).

Definition is_upper (c : ascii) : bool := (65 <=? code c) && (code c <=? 90).
Definition is_lower (c : ascii) : bool := (97 <=? code c) && (code c <=? 122).
Definition is_digit (c : ascii) : bool := (48 <=? code c) && (code c <=? 57).
Definition is_alpha (c : ascii) : bool := is_upper c || is_lower c.

Definition is_scheme_char (c : ascii) : bool :=
  is_alpha c || is_digit c || (code c =? 43) || (code c =? 45) || (code c =? 46).

Definition to_lower (c : ascii) : ascii :=
  if is_upper c then ascii_of_nat (code c + 32) else c.

Fixpoint strip_leading (s : string) : string :=
  match s with
  | String c rest => if is_c0_or_space c then strip_leading rest else s
  | EmptyString => EmptyString
  end.

Fixpoint strip_trailing (s : string) : string :=
  match s with
  | String c rest =>
      match strip_trailing rest with
      | EmptyString => if is_c0_or_space c then EmptyString else String c EmptyString
      | rest' => String c rest'
      end
  | EmptyString => EmptyString
  end.

Fixpoint remove_tab_newline (s : string) : string :=
  match s with
  | String c rest =>
      if is_tab_or_newline c then remove_tab_newline rest
      else String c (remove_tab_newline rest)
  | EmptyString => EmptyString
  end.

(** Scheme state: [buffer] is the lower-cased scheme read so far. *)
Fixpoint scheme_state (buffer : string) (s : string) : option string :=
  match s with
  | String c rest =>
      if is_scheme_char c then scheme_state (buffer +:+ String (to_lower c) EmptyString) rest
      else if code c =? 58 then Some buffer
      else None
  | EmptyString => None
  end.

(** Scheme start state. *)
Definition scheme_start_state (s : string) : option string :=
  match s with
  | String c rest =>
      if is_alpha c then scheme_state (String (to_lower c) EmptyString) rest else None
  | EmptyString => None
  end.

Definition scheme_of (input : string) : option string :=
  scheme_start_state (remove_tab_newline (strip_trailing (strip_leading input))).

(** A parser follows the standard's scheme scan when every URL it returns
    has the scanned scheme, followed by a colon, as its [protocol]. *)
Definition follows_scheme_scan (URL_new : string -> option URL) : Prop :=
  forall value parsed,
    URL_new value = Some parsed ->
    exists scheme, scheme_of value = Some scheme /\ protocol parsed = scheme +:+ ":".

(** The most permissive such parser: it accepts whatever has a scheme. *)
Definition scheme_only_parser (value : string) : option URL :=
  match scheme_of value with
  | Some scheme => Some (mkURL (scheme +:+ ":"))
  | None => None
  end.

End Whatwg.

(** ** The component state *)

(** Object URLs ([blob:] strings) are numbered in allocation order. *)
Definition ObjectURL := nat.

(** One [Image] load started by the decode effect.  [cancelled] is the
    [let cancelled] of the effect run that created the image: the load
    callbacks and that run's cleanup share it. *)
Record ImageLoad := mkImageLoad {
  load_file : File;
  cancelled : bool
}.

Record State := mkState {
  (* useState *)
  selectedFile : option File;
  imageUrl : option ObjectURL;
  errorMessage : option string;
  decodeResult : option string;
  decodeError : option string;
  isDecoding : bool;
  (* fileInputRef.current.value *)
  inputValue : string;
  (* React: the [selectedFile] dependency changed since the last commit, and
     the cleanups returned by the last run of the preview and decode effects
     (each holds the [url] of its run) *)
  depsChanged : bool;
  previewCleanup : option ObjectURL;
  decodeCleanup : option ObjectURL;
  (* browser: object URL store and image loads in flight, keyed by [url] *)
  nextUrl : ObjectURL;
  liveUrls : gset nat;
  images : gmap nat ImageLoad
}.

Definition initial : State :=
  mkState None None None None None false "" false None None 0 ∅ ∅.

Definition setImageUrl (v : option ObjectURL) (s : State) : State :=
  mkState (selectedFile s) v (errorMessage s) (decodeResult s) (decodeError s)
    (isDecoding s) (inputValue s) (depsChanged s) (previewCleanup s)
    (decodeCleanup s) (nextUrl s) (liveUrls s) (images s).

Definition setErrorMessage (v : option string) (s : State) : State :=
  mkState (selectedFile s) (imageUrl s) v (decodeResult s) (decodeError s)
    (isDecoding s) (inputValue s) (depsChanged s) (previewCleanup s)
    (decodeCleanup s) (nextUrl s) (liveUrls s) (images s).

Definition setDecodeResult (v : option string) (s : State) : State :=
  mkState (selectedFile s) (imageUrl s) (errorMessage s) v (decodeError s)
    (isDecoding s) (inputValue s) (depsChanged s) (previewCleanup s)
    (decodeCleanup s) (nextUrl s) (liveUrls s) (images s).

Definition setDecodeError (v : option string) (s : State) : State :=
  mkState (selectedFile s) (imageUrl s) (errorMessage s) (decodeResult s) v
    (isDecoding s) (inputValue s) (depsChanged s) (previewCleanup s)
    (decodeCleanup s) (nextUrl s) (liveUrls s) (images s).

Definition setIsDecoding (v : bool) (s : State) : State :=
  mkState (selectedFile s) (imageUrl s) (errorMessage s) (decodeResult s)
    (decodeError s) v (inputValue s) (depsChanged s) (previewCleanup s)
    (decodeCleanup s) (nextUrl s) (liveUrls s) (images s).

Definition setInputValue (v : string) (s : State) : State :=
  mkState (selectedFile s) (imageUrl s) (errorMessage s) (decodeResult s)
    (decodeError s) (isDecoding s) v (depsChanged s) (previewCleanup s)
    (decodeCleanup s) (nextUrl s) (liveUrls s) (images s).

(** [Object.is] on the [selectedFile] dependency.  Every change or paste
    event hands the component a [File] object of its own, so a file set by
    a handler is never the object already selected; only [null] is
    identical to [null]. *)
Definition Object_is (a b : option File) : bool :=
  match a, b with
  | None, None => true
  | _, _ => false
  end.

(** The state setter of [selectedFile]: an identical value is dropped, any
    other schedules the effects that depend on it. *)
Definition setSelectedFile (v : option File) (s : State) : State :=
  mkState v (imageUrl s) (errorMessage s) (decodeResult s) (decodeError s)
    (isDecoding s) (inputValue s)
    (depsChanged s || negb (Object_is (selectedFile s) v))
    (previewCleanup s) (decodeCleanup s) (nextUrl s) (liveUrls s) (images s).

Definition setDepsChanged (v : bool) (s : State) : State :=
  mkState (selectedFile s) (imageUrl s) (errorMessage s) (decodeResult s)
    (decodeError s) (isDecoding s) (inputValue s) v (previewCleanup s)
    (decodeCleanup s) (nextUrl s) (liveUrls s) (images s).

Definition setPreviewCleanup (v : option ObjectURL) (s : State) : State :=
  mkState (selectedFile s) (imageUrl s) (errorMessage s) (decodeResult s)
    (decodeError s) (isDecoding s) (inputValue s) (depsChanged s) v
    (decodeCleanup s) (nextUrl s) (liveUrls s) (images s).

Definition setDecodeCleanup (v : option ObjectURL) (s : State) : State :=
  mkState (selectedFile s) (imageUrl s) (errorMessage s) (decodeResult s)
    (decodeError s) (isDecoding s) (inputValue s) (depsChanged s)
    (previewCleanup s) v (nextUrl s) (liveUrls s) (images s).

Definition setImages (v : gmap nat ImageLoad) (s : State) : State :=
  mkState (selectedFile s) (imageUrl s) (errorMessage s) (decodeResult s)
    (decodeError s) (isDecoding s) (inputValue s) (depsChanged s)
    (previewCleanup s) (decodeCleanup s) (nextUrl s) (liveUrls s) v.

(** [URL.createObjectURL]: a URL never handed out before, now live. *)
Definition createObjectURL (s : State) : ObjectURL * State :=
  (nextUrl s,
   mkState (selectedFile s) (imageUrl s) (errorMessage s) (decodeResult s)
     (decodeError s) (isDecoding s) (inputValue s) (depsChanged s)
     (previewCleanup s) (decodeCleanup s) (S (nextUrl s))
     ({[nextUrl s]} ∪ liveUrls s) (images s)).

(** [URL.revokeObjectURL]: revoking twice, or a URL never made, does nothing. *)
Definition revokeObjectURL (url : ObjectURL) (s : State) : State :=
  mkState (selectedFile s) (imageUrl s) (errorMessage s) (decodeResult s)
    (decodeError s) (isDecoding s) (inputValue s) (depsChanged s)
    (previewCleanup s) (decodeCleanup s) (nextUrl s)
    (liveUrls s ∖ {[url]}) (images s).

(** ** The two [selectedFile] effects *)

(** The [set...] calls an effect makes do not change the cells at once:
    React queues them and applies them at the render that follows the
    effects. *)
Definition Updates := list (State -> State).

Definition flush (queue : Updates) (s : State) : State :=
  fold_left (fun s update => update s) queue s.

(** The preview effect (first [useEffect]): the state its run leaves, and
    the updates it has queued. *)
Definition previewEffect (s : State) : State * Updates :=
  match selectedFile s with
  | None =>
      (setPreviewCleanup None s,
       [setImageUrl None; setDecodeResult None; setDecodeError None; setIsDecoding false])
  | Some _ =>
      let (url, s1) := createObjectURL s in
      (setPreviewCleanup (Some url) s1, [setImageUrl (Some url)])
  end.

(** The decode effect (second [useEffect]): [image.src = url] starts a load
    whose callbacks see this run's [cancelled] and [url]. *)
Definition decodeEffect (s : State) : State * Updates :=
  match selectedFile s with
  | None => (setDecodeCleanup None s, [])
  | Some file =>
      let (url, s1) := createObjectURL s in
      (setDecodeCleanup (Some url)
         (setImages (<[url := mkImageLoad file false]> (images s1)) s1),
       [setIsDecoding true; setDecodeError None; setDecodeResult None])
  end.

(** [() => URL.revokeObjectURL(url)] *)
Definition runPreviewCleanup (s : State) : State :=
  match previewCleanup s with
  | Some url => revokeObjectURL url s
  | None => s
  end.

Definition cancel (l : ImageLoad) : ImageLoad := mkImageLoad (load_file l) true.

(** [() => { cancelled = true; URL.revokeObjectURL(url) }] *)
Definition runDecodeCleanup (s : State) : State :=
  match decodeCleanup s with
  | Some url => revokeObjectURL url (setImages (alter cancel url (images s)) s)
  | None => s
  end.

(** After the render of a handler's updates: when the dependency changed,
    the cleanups of the previous runs fire, then the effects run again, in
    declaration order, in the same turn of the event loop as the handler.
    The result is the state in which the component has been rendered with
    the handler's cells and the effects have run, together with the updates
    the effects queued. *)
Definition runEffects (s : State) : State * Updates :=
  if depsChanged s then
    let s0 := runDecodeCleanup (runPreviewCleanup (setDepsChanged false s)) in
    let (s1, queue1) := previewEffect s0 in
    let (s2, queue2) := decodeEffect s1 in
    (s2, queue1 ++ queue2)%list
  else (s, []).

(** The settled state: the effects have run and the render that applies
    their updates is over. *)
Definition commit (s : State) : State :=
  let (s1, queue) := runEffects s in flush queue s1.

(** ** Event handlers *)

Definition MSG_CLIPBOARD_NO_ITEMS : string :=
  "クリップボードに画像が見つかりませんでした。".

Definition MSG_CLIPBOARD_NO_IMAGE_ITEM : string :=
  "クリップボードに画像が見つかりませんでした。".

Definition MSG_CLIPBOARD_READ_FAILED : string :=
  "クリップボードの画像を読み込めませんでした。".

Definition MSG_CONTEXT_UNAVAILABLE : string :=
  "画像の解析に必要な描画コンテキストを取得できませんでした。".

Definition MSG_CODE_NOT_FOUND : string :=
  "QRコードが見つかりませんでした。".

Definition MSG_IMAGE_LOAD_FAILED : string :=
  "画像の読み込みに失敗しました。".

(** A clipboard item: its [type] and what [getAsFile()] returns. *)
Record DataTransferItem := mkItem {
  item_type : string;
  getAsFile : option File
}.

(** [handlePaste]; the argument is [event.clipboardData?.items]. *)
Definition handlePaste (items : option (list DataTransferItem)) (s : State) : State :=
  match items with
  | None => setErrorMessage (Some MSG_CLIPBOARD_NO_ITEMS) s
  | Some items =>
      if Nat.eqb (List.length items) 0 then setErrorMessage (Some MSG_CLIPBOARD_NO_ITEMS) s
      else
        match List.find (fun item => String.prefix "image/" (item_type item)) items with
        | None => setErrorMessage (Some MSG_CLIPBOARD_NO_IMAGE_ITEM) s
        | Some imageItem =>
            match getAsFile imageItem with
            | None => setErrorMessage (Some MSG_CLIPBOARD_READ_FAILED) s
            | Some file =>
                match validateFile file with
                | Some validationError => setErrorMessage (Some validationError) s
                | None => setSelectedFile (Some file) (setErrorMessage None s)
                end
            end
        end
  end.

(** [handleFileChange]; the argument is [event.target.files]. *)
Definition handleFileChange (files : list File) (s : State) : State :=
  match head files with
  | None => s
  | Some file =>
      match validateFile file with
      | Some validationError =>
          setInputValue "" (setSelectedFile None (setErrorMessage (Some validationError) s))
      | None => setSelectedFile (Some file) (setErrorMessage None s)
      end
  end.

Definition handleReset (s : State) : State :=
  setInputValue ""
    (setIsDecoding false
       (setDecodeError None (setDecodeResult None (setErrorMessage None (setSelectedFile None s))))).

(** How a callback ends: it returns, or an exception escapes it.  Either
    way the state is the one its [set...] calls have built so far. *)
Inductive Completion :=
  | Returned (s : State)
  | Threw (exn : string) (s : State).

Definition state_of (c : Completion) : State :=
  match c with
  | Returned s => s
  | Threw _ s => s
  end.

(** [context.getImageData(0, 0, sw, sh)]: the exception it throws, if any
    (HTML standard, canvas pixel manipulation).  [IndexSizeError] when [sw]
    or [sh] is zero; [RangeError] when the pixel buffer cannot be
    allocated, which is for the browser to say ([allocated]) and happens to
    valid images of a few megabytes with very many pixels; otherwise it
    returns the pixels. *)
Definition getImageData_throws (sw sh : N) (allocated : bool) : option string :=
  if ((sw =? 0) || (sh =? 0))%N then Some "IndexSizeError"
  else if allocated then None
  else Some "RangeError".

(** [image.onload].  [env] is the closure of the effect run that made the
    image; [context] tells whether [canvas.getContext] returned a context,
    [allocated] whether the browser can allocate the pixel buffer
    [getImageData] asks for, [code] is what [jsQR] returns on the pixels of
    this image. *)
Definition image_onload (url : ObjectURL) (env : ImageLoad)
    (naturalWidth naturalHeight : N) (context allocated : bool) (code : option string)
    (s : State) : Completion :=
  if cancelled env then Returned (revokeObjectURL url s)
  else if negb context then
    Returned (revokeObjectURL url
                (setIsDecoding false (setDecodeError (Some MSG_CONTEXT_UNAVAILABLE) s)))
  else
    match getImageData_throws naturalWidth naturalHeight allocated with
    | Some exn => Threw exn s
    | None =>
        let s1 :=
          match code with
          | None => setDecodeError (Some MSG_CODE_NOT_FOUND) s
          | Some data => setDecodeResult (Some data) s
          end in
        Returned (revokeObjectURL url (setIsDecoding false s1))
    end.

(** [image.onerror] *)
Definition image_onerror (url : ObjectURL) (env : ImageLoad) (s : State) : Completion :=
  if cancelled env then Returned (revokeObjectURL url s)
  else
    Returned (revokeObjectURL url
                (setIsDecoding false (setDecodeError (Some MSG_IMAGE_LOAD_FAILED) s))).

(** ** Events and the transition function *)

Inductive Event :=
  | Change (files : list File)
  | Paste (items : option (list DataTransferItem))
  | ResetClick
  | ImgLoad (url : ObjectURL) (naturalWidth naturalHeight : N)
      (context allocated : bool) (code : option string)
  | ImgError (url : ObjectURL).

(** The value the browser gives the file input before it fires [change]. *)
Definition fakepath (files : list File) : string :=
  match head files with
  | Some file => "C:\fakepath\" +:+ file_name file
  | None => ""
  end.

(** What the callback of an event does.  An image fires one of its two
    callbacks, once: afterwards its load is no longer in flight. *)
Definition dispatch (e : Event) (s : State) : Completion :=
  match e with
  | Change files => Returned (handleFileChange files (setInputValue (fakepath files) s))
  | Paste items => Returned (handlePaste items s)
  | ResetClick => Returned (handleReset s)
  | ImgLoad url w h context allocated code =>
      match images s !! url with
      | Some env =>
          image_onload url env w h context allocated code
            (setImages (delete url (images s)) s)
      | None => Returned s
      end
  | ImgError url =>
      match images s !! url with
      | Some env => image_onerror url env (setImages (delete url (images s)) s)
      | None => Returned s
      end
  end.

Definition step (s : State) (e : Event) : State := commit (state_of (dispatch e s)).

Definition run (events : list Event) (s : State) : State := fold_left step events s.

(** Where the component stands between the effects an event has caused and
    the render that applies their updates: the effects have run, the cells
    are still those the handler left. *)
Definition lagging (s : State) (e : Event) : State :=
  fst (runEffects (state_of (dispatch e s))).

(** ** What is on screen *)

(** JavaScript truthiness of a [string | null] cell. *)
Definition truthy (v : option string) : bool :=
  match v with
  | Some (String _ _) => true
  | _ => false
  end.

(** The six [useState] cells. *)
Definition hooks (s : State) :
    option File * option ObjectURL * option string * option string * option string * bool :=
  (selectedFile s, imageUrl s, errorMessage s, decodeResult s, decodeError s, isDecoding s).

(** The conditional parts of the JSX the component returns. *)
Record View := mkView {
  view_errorMessage : option string;
  view_file : option File;
  view_pending : bool;
  view_decodeError : option string;
  view_decodeResult : option string;
  view_link : bool;
  view_placeholder : bool;
  view_preview : option ObjectURL
}.

Definition render (URL_new : string -> option URL) (s : State) : View :=
  let card := match selectedFile s with Some _ => true | None => false end in
  let settled := card && negb (isDecoding s) in
  mkView
    (if truthy (errorMessage s) then errorMessage s else None)
    (selectedFile s)
    (card && isDecoding s)
    (if settled && truthy (decodeError s) then decodeError s else None)
    (if settled && truthy (decodeResult s) then decodeResult s else None)
    (settled && truthy (decodeResult s) &&
       match decodeResult s with Some text => isHttpUrl URL_new text | None => false end)
    (settled && negb (truthy (decodeError s)) && negb (truthy (decodeResult s)))
    (if card then imageUrl s else None).

(** The decode outcomes of the data model, read off the three decode cells.
    [None]: no decode has run (nothing selected), or the cells hold a
    combination that stands for no single outcome. *)
Inductive DecodeOutcome :=
  | Pending
  | Success (text : string)
  | NotFound
  | LoadError
  | ContextError.

Definition outcome (s : State) : option DecodeOutcome :=
  match isDecoding s, decodeResult s, decodeError s with
  | true, None, None => Some Pending
  | false, Some text, None => Some (Success text)
  | false, None, Some message =>
      if String.eqb message MSG_CODE_NOT_FOUND then Some NotFound
      else if String.eqb message MSG_IMAGE_LOAD_FAILED then Some LoadError
      else if String.eqb message MSG_CONTEXT_UNAVAILABLE then Some ContextError
      else None
  | _, _, _ => None
  end.

(** ** Traces *)

Definition is_callback (e : Event) : bool :=
  match e with
  | ImgLoad _ _ _ _ _ _ | ImgError _ => true
  | _ => false
  end.

(** The image (named by its URL) whose callback an event is. *)
Definition callback_url (e : Event) : option ObjectURL :=
  match e with
  | ImgLoad url _ _ _ _ _ | ImgError url => Some url
  | _ => None
  end.

Definition callback_of (url : ObjectURL) (e : Event) : bool :=
  match callback_url e with
  | Some u => Nat.eqb u url
  | None => false
  end.

(** The callback belongs to the load started by the latest decode effect. *)
Definition for_current (s : State) (e : Event) : bool :=
  match decodeCleanup s with
  | Some url => callback_of url e
  | None => false
  end.

(** The handler of [e] replaces or clears the selection: it calls
    [setSelectedFile] with a value that is not the selected one. *)
Definition changes_selection (s : State) (e : Event) : bool :=
  depsChanged (state_of (dispatch e s)).

(** ** Invariants of the reachable states *)

(** Object URLs left live by a cleanup that holds [o]. *)
Definition revoked (o : option ObjectURL) (live : gset nat) : gset nat :=
  match o with
  | Some url => live ∖ {[url]}
  | None => live
  end.

(** Loads in flight after the decode cleanup that holds [o] has run. *)
Definition cancelled_at (o : option ObjectURL) (m : gmap nat ImageLoad) : gmap nat ImageLoad :=
  match o with
  | Some url => alter cancel url m
  | None => m
  end.

(** Browser resources: only the latest decode effect's load can be
    uncancelled, every live URL is held by a registered cleanup, and no URL
    in use is one [createObjectURL] has yet to hand out. *)
Record Resources (s : State) : Prop := mkResources {
  res_current : forall u l, images s !! u = Some l -> cancelled l = false ->
      decodeCleanup s = Some u;
  res_owned : forall u, u ∈ liveUrls s ->
      previewCleanup s = Some u \/ decodeCleanup s = Some u;
  res_fresh_url : forall u, u ∈ liveUrls s -> u < nextUrl s;
  res_fresh_img : forall u l, images s !! u = Some l -> u < nextUrl s;
  res_fresh_preview : forall u, previewCleanup s = Some u -> u < nextUrl s;
  res_fresh_decode : forall u, decodeCleanup s = Some u -> u < nextUrl s
}.

(** The decode cells: between events the effects have run; an uncancelled
    load is that of the selected file and shows as pending; pending,
    result and error exclude each other; with nothing selected every
    cell is empty. *)
Record Display (s : State) : Prop := mkDisplay {
  dis_committed : depsChanged s = false;
  dis_inflight : forall u l, images s !! u = Some l -> cancelled l = false ->
      selectedFile s = Some (load_file l) /\ isDecoding s = true;
  dis_pending : isDecoding s = true -> decodeResult s = None /\ decodeError s = None;
  dis_one : decodeResult s = None \/ decodeError s = None;
  dis_idle : selectedFile s = None ->
      imageUrl s = None /\ decodeResult s = None /\ decodeError s = None /\
      isDecoding s = false
}.

Definition Inv (s : State) : Prop := Resources s /\ Display s.

(** Two states that show the same, run the same decode effect and agree on
    its load; in both, every other load is cancelled. *)
Record Similar (s s' : State) : Prop := mkSimilar {
  sim_hooks : hooks s = hooks s';
  sim_committed : depsChanged s = false /\ depsChanged s' = false;
  sim_cleanup : decodeCleanup s = decodeCleanup s';
  sim_load : forall u, decodeCleanup s = Some u -> images s !! u = images s' !! u;
  sim_stale : forall u l, images s !! u = Some l -> cancelled l = false ->
      decodeCleanup s = Some u;
  sim_stale' : forall u l, images s' !! u = Some l -> cancelled l = false ->
      decodeCleanup s' = Some u
}.

Definition throws (c : Completion) : bool :=
  match c with
  | Threw _ _ => true
  | Returned _ => false
  end.

(** The branch a load callback takes, as a value: it depends on the event
    and on the closure of the image, not on the component state. *)
Inductive Settlement :=
  | Stale
  | Raises (exn : string)
  | Fails (message : string)
  | Decodes (data : string).

Definition settlement (e : Event) (env : ImageLoad) : Settlement :=
  if cancelled env then Stale
  else
    match e with
    | ImgLoad _ w h context allocated code =>
        if negb context then Fails MSG_CONTEXT_UNAVAILABLE
        else
          match getImageData_throws w h allocated with
          | Some exn => Raises exn
          | None =>
              match code with
              | None => Fails MSG_CODE_NOT_FOUND
              | Some data => Decodes data
              end
          end
    | ImgError _ => Fails MSG_IMAGE_LOAD_FAILED
    | _ => Stale
    end.

Definition settle (url : ObjectURL) (o : Settlement) (s : State) : Completion :=
  match o with
  | Stale => Returned (revokeObjectURL url s)
  | Raises exn => Threw exn s
  | Fails message =>
      Returned (revokeObjectURL url (setIsDecoding false (setDecodeError (Some message) s)))
  | Decodes data =>
      Returned (revokeObjectURL url (setIsDecoding false (setDecodeResult (Some data) s)))
  end.

(** ** Sample inputs *)

Definition example_png : File := mkFile "a.png" "image/png" 2048.
Definition example_jpeg : File := mkFile "b.jpg" "image/jpeg" 4096.
Definition example_gif : File := mkFile "c.gif" "image/gif" 512.

(** A clipboard holding copied text only. *)
Definition example_text_clipboard : list DataTransferItem :=
  [mkItem "text/plain" None; mkItem "text/html" None].

(** ** The file card *)

(** [mb.toFixed(2)] for [mb = bytes / (1024 * 1024)], as the number of
    hundredths it prints.  [bytes] is an integer and the divisor a power of
    two, so the quotient is exact as a double, and [toFixed] takes the
    integer [n] for which [n / 100] is nearest to it, the larger one on a
    tie: [n] is [100 * bytes / 2^20] rounded half up. *)
Definition mb_hundredths (bytes : N) : N :=
  (2 * (100 * bytes) + 1024 * 1024) / (2 * (1024 * 1024)).

Definition decimal_digit (d : N) : string :=
  String (ascii_of_N (48 + d)) EmptyString.

(** The digits [toFixed(2)] prints for [n] hundredths: the integer part,
    a point, two decimals. *)
Definition toFixed_2 (n : N) : string :=
  pretty (n / 100)%N +:+ "." +:+ decimal_digit ((n / 10) mod 10) +:+ decimal_digit (n mod 10).

Definition formatBytes (bytes : N) : string :=
  toFixed_2 (mb_hundredths bytes) +:+ " MB".

Record FileMeta := mkFileMeta {
  meta_name : string;
  meta_size : string;
  meta_type : string
}.

(** The [fileMeta] memo; [name || 'clipboard-image'] falls back on the
    empty name. *)
Definition fileMeta (s : State) : option FileMeta :=
  match selectedFile s with
  | None => None
  | Some file =>
      Some (mkFileMeta
              (match file_name file with
               | EmptyString => "clipboard-image"
               | name => name
               end)
              (formatBytes (file_size file))
              (file_type file))
  end.

(** The four alternatives of the "Decode Result" box, in JSX order. *)
Definition panels (v : View) : list bool :=
  [view_pending v;
   match view_decodeError v with Some _ => true | None => false end;
   match view_decodeResult v with Some _ => true | None => false end;
   view_placeholder v].

Definition count_shown (l : list bool) : nat := List.length (List.filter (fun b => b) l).

(** ** The selection and its preview *)

(** The selected file passed validation; the preview cell holds the URL of
    the preview effect's last run, which is live and is no decode load's
    URL; the decode effect's URL is the one made right after it; with
    nothing selected neither effect holds a URL. *)
Record Selection (s : State) : Prop := mkSelection {
  sel_valid : forall file, selectedFile s = Some file -> validateFile file = None;
  sel_preview : imageUrl s = previewCleanup s;
  sel_none : selectedFile s = None -> previewCleanup s = None /\ decodeCleanup s = None;
  sel_some : forall file, selectedFile s = Some file ->
      exists p, previewCleanup s = Some p /\ decodeCleanup s = Some (S p);
  sel_live : forall p, previewCleanup s = Some p -> p ∈ liveUrls s /\ images s !! p = None
}.

(** ** The component before the decode pipeline ([src/App.tsx])

    The same [validateFile], paste and file-input handlers; three state
    cells, the preview effect alone, and a reset that clears the selection
    and the error. *)
Module Preview.

Record State := mkState {
  selectedFile : option File;
  imageUrl : option ObjectURL;
  errorMessage : option string;
  inputValue : string;
  depsChanged : bool;
  previewCleanup : option ObjectURL;
  nextUrl : ObjectURL;
  liveUrls : gset nat
}.

Definition initial : State := mkState None None None "" false None 0 ∅.

Definition setSelectedFile (v : option File) (s : State) : State :=
  mkState v (imageUrl s) (errorMessage s) (inputValue s)
    (depsChanged s || negb (Object_is (selectedFile s) v))
    (previewCleanup s) (nextUrl s) (liveUrls s).

Definition setImageUrl (v : option ObjectURL) (s : State) : State :=
  mkState (selectedFile s) v (errorMessage s) (inputValue s) (depsChanged s)
    (previewCleanup s) (nextUrl s) (liveUrls s).

Definition setErrorMessage (v : option string) (s : State) : State :=
  mkState (selectedFile s) (imageUrl s) v (inputValue s) (depsChanged s)
    (previewCleanup s) (nextUrl s) (liveUrls s).

Definition setInputValue (v : string) (s : State) : State :=
  mkState (selectedFile s) (imageUrl s) (errorMessage s) v (depsChanged s)
    (previewCleanup s) (nextUrl s) (liveUrls s).

Definition setDepsChanged (v : bool) (s : State) : State :=
  mkState (selectedFile s) (imageUrl s) (errorMessage s) (inputValue s) v
    (previewCleanup s) (nextUrl s) (liveUrls s).

Definition setPreviewCleanup (v : option ObjectURL) (s : State) : State :=
  mkState (selectedFile s) (imageUrl s) (errorMessage s) (inputValue s)
    (depsChanged s) v (nextUrl s) (liveUrls s).

Definition createObjectURL (s : State) : ObjectURL * State :=
  (nextUrl s,
   mkState (selectedFile s) (imageUrl s) (errorMessage s) (inputValue s)
     (depsChanged s) (previewCleanup s) (S (nextUrl s)) ({[nextUrl s]} ∪ liveUrls s)).

Definition revokeObjectURL (url : ObjectURL) (s : State) : State :=
  mkState (selectedFile s) (imageUrl s) (errorMessage s) (inputValue s)
    (depsChanged s) (previewCleanup s) (nextUrl s) (liveUrls s ∖ {[url]}).

(** The only [selectedFile] effect: the state its run leaves, and the
    update it has queued for the next render. *)
Definition previewEffect (s : State) : State * list (State -> State) :=
  match selectedFile s with
  | None => (setPreviewCleanup None s, [setImageUrl None])
  | Some _ =>
      let (url, s1) := createObjectURL s in
      (setPreviewCleanup (Some url) s1, [setImageUrl (Some url)])
  end.

Definition runPreviewCleanup (s : State) : State :=
  match previewCleanup s with
  | Some url => revokeObjectURL url s
  | None => s
  end.

Definition runEffects (s : State) : State * list (State -> State) :=
  if depsChanged s then previewEffect (runPreviewCleanup (setDepsChanged false s))
  else (s, []).

Definition commit (s : State) : State :=
  let (s1, queue) := runEffects s in fold_left (fun s update => update s) queue s1.

Definition handlePaste (items : option (list DataTransferItem)) (s : State) : State :=
  match items with
  | None => setErrorMessage (Some MSG_CLIPBOARD_NO_ITEMS) s
  | Some items =>
      if Nat.eqb (List.length items) 0 then setErrorMessage (Some MSG_CLIPBOARD_NO_ITEMS) s
      else
        match List.find (fun item => String.prefix "image/" (item_type item)) items with
        | None => setErrorMessage (Some MSG_CLIPBOARD_NO_IMAGE_ITEM) s
        | Some imageItem =>
            match getAsFile imageItem with
            | None => setErrorMessage (Some MSG_CLIPBOARD_READ_FAILED) s
            | Some file =>
                match validateFile file with
                | Some validationError => setErrorMessage (Some validationError) s
                | None => setSelectedFile (Some file) (setErrorMessage None s)
                end
            end
        end
  end.

Definition handleFileChange (files : list File) (s : State) : State :=
  match head files with
  | None => s
  | Some file =>
      match validateFile file with
      | Some validationError =>
          setInputValue "" (setSelectedFile None (setErrorMessage (Some validationError) s))
      | None => setSelectedFile (Some file) (setErrorMessage None s)
      end
  end.

Definition handleReset (s : State) : State :=
  setInputValue "" (setErrorMessage None (setSelectedFile None s)).

(** This component makes no [Image]: the load events are never delivered
    to it and are skipped. *)
Definition dispatch (e : Event) (s : State) : State :=
  match e with
  | Change files => handleFileChange files (setInputValue (fakepath files) s)
  | Paste items => handlePaste items s
  | ResetClick => handleReset s
  | ImgLoad _ _ _ _ _ _ | ImgError _ => s
  end.

Definition step (s : State) (e : Event) : State := commit (dispatch e s).

Definition run (events : list Event) (s : State) : State := fold_left step events s.

(** Between an event's effect and the render that applies its update. *)
Definition lagging (s : State) (e : Event) : State := fst (runEffects (dispatch e s)).

End Preview.

(** The two components side by side: the same selection, error message and
    file-input value; a preview in one exactly when in the other, the later
    component having made two object URLs where the earlier made one. *)
Record Agree (o : Preview.State) (n : State) : Prop := mkAgree {
  agree_selected : Preview.selectedFile o = selectedFile n;
  agree_error : Preview.errorMessage o = errorMessage n;
  agree_input : Preview.inputValue o = inputValue n;
  agree_committed : Preview.depsChanged o = false /\ depsChanged n = false;
  agree_next : nextUrl n = 2 * Preview.nextUrl o;
  agree_preview : imageUrl n = (fun url => 2 * url) <$> Preview.imageUrl o;
  agree_live : Preview.liveUrls o =
               match Preview.imageUrl o with Some url => {[url]} | None => ∅ end;
  agree_cleanup : Preview.previewCleanup o = Preview.imageUrl o
}.

(** * Validation *)

Lemma ACCEPTED_MIME_TYPES_has_spec (t : string) :
  ACCEPTED_MIME_TYPES_has t = true <->
  t = "image/png" \/ t = "image/jpeg" \/ t = "image/webp".
Proof.
  unfold ACCEPTED_MIME_TYPES_has, ACCEPTED_MIME_TYPES.
  rewrite bool_decide_eq_true, !elem_of_union, !elem_of_singleton. tauto.
Qed.

Lemma messages_differ : MSG_FILE_TOO_LARGE <> MSG_UNSUPPORTED_FORMAT.
Proof. intros H. apply String.eqb_eq in H. vm_compute in H. discriminate. Qed.

Example validate_upper_case_png :
  validateFile (mkFile "a.PNG" "image/PNG" 10) = Some MSG_UNSUPPORTED_FORMAT.
Proof. reflexivity. Qed.

Example validate_gif_empty :
  validateFile (mkFile "a.gif" "image/gif" 0) = Some MSG_UNSUPPORTED_FORMAT.
Proof. reflexivity. Qed.

Example validate_at_limit : validateFile (mkFile "a.png" "image/png" 5242880) = None.
Proof. reflexivity. Qed.

Example validate_over_limit :
  validateFile (mkFile "a.webp" "image/webp" 5242881) = Some MSG_FILE_TOO_LARGE.
Proof. reflexivity. Qed.

(** C2. A file whose declared type is not exactly one of image/png,
    image/jpeg, image/webp is rejected with the unsupported-format message
    whatever its size; for a file whose type is one of the three the format
    check passes: the result is never the unsupported-format message. *)
Theorem validateFile_format (file : File) :
  let accepted :=
    file_type file = "image/png" \/ file_type file = "image/jpeg" \/
    file_type file = "image/webp" in
  (~ accepted -> validateFile file = Some MSG_UNSUPPORTED_FORMAT) /\
  (accepted -> validateFile file <> Some MSG_UNSUPPORTED_FORMAT).
Proof.
  cbv zeta. rewrite <- ACCEPTED_MIME_TYPES_has_spec. unfold validateFile.
  destruct (ACCEPTED_MIME_TYPES_has (file_type file)); cbn [negb]; split.
  - intros H. by destruct H.
  - intros _. destruct (N.ltb MAX_FILE_SIZE_BYTES (file_size file)).
    + intros H. apply messages_differ. congruence.
    + discriminate.
  - reflexivity.
  - discriminate.
Qed.

Lemma validateFile_format_witness :
  validateFile (mkFile "a.gif" "image/GIF" 6000000) = Some MSG_UNSUPPORTED_FORMAT /\
  validateFile (mkFile "a.jpg" "image/jpeg" 6000000) <> Some MSG_UNSUPPORTED_FORMAT.
Proof.
  split.
  - apply (validateFile_format (mkFile "a.gif" "image/GIF" 6000000)).
    cbn. intros [H|[H|H]]; discriminate H.
  - apply (validateFile_format (mkFile "a.jpg" "image/jpeg" 6000000)).
    cbn. right; left; reflexivity.
Defined.

(** C3. The limit is 5 * 1024 * 1024 = 5,242,880 bytes.  A file of an
    accepted type is accepted when its size is at most the limit, the limit
    included, and rejected with the too-large message from 5,242,881 bytes
    on. *)
Theorem validateFile_size (file : File) :
  file_type file = "image/png" \/ file_type file = "image/jpeg" \/
    file_type file = "image/webp" ->
  MAX_FILE_SIZE_BYTES = 5242880%N /\
  ((file_size file <= 5242880)%N -> validateFile file = None) /\
  ((5242881 <= file_size file)%N -> validateFile file = Some MSG_FILE_TOO_LARGE).
Proof.
  intros Hacc%ACCEPTED_MIME_TYPES_has_spec. unfold validateFile. rewrite Hacc. cbn [negb].
  split; [reflexivity|].
  change MAX_FILE_SIZE_BYTES with 5242880%N.
  split; intros Hsize.
  - destruct (N.ltb_spec 5242880 (file_size file)); [lia | done].
  - destruct (N.ltb_spec 5242880 (file_size file)); [done | lia].
Qed.

Lemma validateFile_size_witness :
  validateFile (mkFile "a.png" "image/png" 5242880) = None /\
  validateFile (mkFile "a.png" "image/png" 5242881) = Some MSG_FILE_TOO_LARGE.
Proof.
  split.
  - apply (validateFile_size (mkFile "a.png" "image/png" 5242880)).
    + left; reflexivity.
    + cbn. lia.
  - apply (validateFile_size (mkFile "a.png" "image/png" 5242881)).
    + left; reflexivity.
    + cbn. lia.
Defined.

(** * Link detection *)

Example scheme_of_https : Whatwg.scheme_of "  HTTPS://Example.com/x " = Some "https".
Proof. reflexivity. Qed.

Example scheme_of_plain_text : Whatwg.scheme_of "hello world" = None.
Proof. reflexivity. Qed.

Example scheme_of_japanese : Whatwg.scheme_of "解析中…" = None.
Proof. reflexivity. Qed.

Lemma append_char_inj (s1 s2 : string) (c : ascii) :
  s1 +:+ String c EmptyString = s2 +:+ String c EmptyString -> s1 = s2.
Proof.
  revert s2. induction s1 as [|a s1 IH]; intros [|b s2]; cbn; intros H.
  - reflexivity.
  - injection H as _ H. destruct s2; discriminate.
  - injection H as _ H. destruct s1; discriminate.
  - injection H as -> H. f_equal. by apply IH.
Qed.

Lemma protocol_of_scheme url scheme :
  protocol url = scheme +:+ ":" ->
  (String.eqb (protocol url) "http:" || String.eqb (protocol url) "https:") =
  (String.eqb scheme "http" || String.eqb scheme "https").
Proof.
  intros ->. f_equal.
  - destruct (String.eqb_spec scheme "http") as [->|Hne]; [done|].
    apply String.eqb_neq. intros H. apply Hne.
    by apply (append_char_inj scheme "http" ":") in H.
  - destruct (String.eqb_spec scheme "https") as [->|Hne]; [done|].
    apply String.eqb_neq. intros H. apply Hne.
    by apply (append_char_inj scheme "https" ":") in H.
Qed.

Lemma isHttpUrl_true URL_new value :
  isHttpUrl URL_new value = true <->
  exists parsed, URL_new value = Some parsed /\
    (protocol parsed = "http:" \/ protocol parsed = "https:").
Proof.
  unfold isHttpUrl. destruct (URL_new value) as [parsed|].
  - rewrite orb_true_iff, !String.eqb_eq. split.
    + intros H. by exists parsed.
    + by intros (? & [= <-] & H).
  - split; [discriminate | by intros (? & ? & _)].
Qed.

Lemma isHttpUrl_scheme URL_new value :
  Whatwg.follows_scheme_scan URL_new ->
  isHttpUrl URL_new value = true <->
  URL_new value <> None /\
    (Whatwg.scheme_of value = Some "http" \/ Whatwg.scheme_of value = Some "https").
Proof.
  intros Hscan. unfold isHttpUrl.
  destruct (URL_new value) as [parsed|] eqn:Hparse.
  - destruct (Hscan _ _ Hparse) as (scheme & -> & Hproto).
    rewrite (protocol_of_scheme _ _ Hproto), orb_true_iff, !String.eqb_eq.
    split.
    + intros [->| ->]; split; auto.
    + intros [_ [[= ->]|[= ->]]]; auto.
  - split; [discriminate | by intros [? _]].
Qed.

Lemma scheme_only_parser_follows : Whatwg.follows_scheme_scan Whatwg.scheme_only_parser.
Proof.
  intros value parsed. unfold Whatwg.scheme_only_parser.
  destruct (Whatwg.scheme_of value) as [scheme|]; [|discriminate].
  intros [= <-]. by exists scheme.
Qed.

(** C4. [isHttpUrl] answers true exactly when [new URL] parses the text and
    the parsed protocol is [http:] or [https:].  For a parser that reports
    the scheme the URL standard scans, that is: the text parses and its
    scheme is http or https; so "https://example.com/x" is a link as soon as
    the parser accepts it, while "hello world" (no scheme) and "ftp://host/x"
    (scheme ftp) are not links. *)
Theorem isHttpUrl_spec (URL_new : string -> option URL) :
  (forall value,
     isHttpUrl URL_new value = true <->
     exists parsed, URL_new value = Some parsed /\
       (protocol parsed = "http:" \/ protocol parsed = "https:")) /\
  (Whatwg.follows_scheme_scan URL_new ->
   (forall value,
      isHttpUrl URL_new value = true <->
      URL_new value <> None /\
        (Whatwg.scheme_of value = Some "http" \/ Whatwg.scheme_of value = Some "https")) /\
   (URL_new "https://example.com/x" <> None ->
    isHttpUrl URL_new "https://example.com/x" = true) /\
   isHttpUrl URL_new "hello world" = false /\
   isHttpUrl URL_new "ftp://host/x" = false).
Proof.
  split; [apply isHttpUrl_true|].
  intros Hscan. split; [intros value; by apply isHttpUrl_scheme|].
  split; [|split].
  - intros Hparse. apply isHttpUrl_scheme; [done|]. split; [done|]. by right.
  - apply not_true_is_false. intros [_ H]%isHttpUrl_scheme; [|done].
    vm_compute in H. by destruct H.
  - apply not_true_is_false. intros [_ H]%isHttpUrl_scheme; [|done].
    vm_compute in H. by destruct H.
Qed.

Lemma isHttpUrl_spec_witness :
  isHttpUrl Whatwg.scheme_only_parser "https://example.com/x" = true /\
  isHttpUrl Whatwg.scheme_only_parser "hello world" = false /\
  isHttpUrl Whatwg.scheme_only_parser "ftp://host/x" = false.
Proof.
  destruct (isHttpUrl_spec Whatwg.scheme_only_parser) as [_ H].
  destruct (H scheme_only_parser_follows) as (_ & Hlink & Htext & Hftp).
  split; [|split].
  - apply Hlink. vm_compute. discriminate.
  - exact Htext.
  - exact Hftp.
Defined.

(** * The commit after a handler *)

Ltac projs :=
  cbn [selectedFile imageUrl errorMessage decodeResult decodeError isDecoding
       inputValue depsChanged previewCleanup decodeCleanup nextUrl liveUrls images
       load_file cancelled state_of] in *.

Lemma commit_same s : depsChanged s = false -> commit s = s.
Proof. unfold commit, runEffects. by intros ->. Qed.

(** A file was set: both cleanups run, the preview effect makes the URL
    [nextUrl], the decode effect the next one and starts its load. *)
Lemma commit_select s file :
  depsChanged s = true -> selectedFile s = Some file ->
  commit s =
    mkState (Some file) (Some (nextUrl s)) (errorMessage s) None None true
      (inputValue s) false (Some (nextUrl s)) (Some (S (nextUrl s)))
      (S (S (nextUrl s)))
      ({[S (nextUrl s)]} ∪ ({[nextUrl s]} ∪
         revoked (decodeCleanup s) (revoked (previewCleanup s) (liveUrls s))))
      (<[S (nextUrl s) := mkImageLoad file false]>
         (cancelled_at (decodeCleanup s) (images s))).
Proof.
  destruct s as [sel iu em dr de dec iv dc pc dcl nu lu im]; projs.
  intros -> ->. destruct pc, dcl; reflexivity.
Qed.

(** The selection was cleared: both cleanups run, the preview effect
    empties the preview and the decode cells, the decode effect returns. *)
Lemma commit_clear s :
  depsChanged s = true -> selectedFile s = None ->
  commit s =
    mkState None None (errorMessage s) None None false (inputValue s) false
      None None (nextUrl s)
      (revoked (decodeCleanup s) (revoked (previewCleanup s) (liveUrls s)))
      (cancelled_at (decodeCleanup s) (images s)).
Proof.
  destruct s as [sel iu em dr de dec iv dc pc dcl nu lu im]; projs.
  intros -> ->. destruct pc, dcl; reflexivity.
Qed.

Lemma elem_of_revoked u o (live : gset nat) :
  u ∈ revoked o live -> u ∈ live /\ o <> Some u.
Proof.
  destruct o as [v|]; cbn; [|by intros].
  intros [? Hne]%elem_of_difference. split; [done|].
  intros [= ->]. apply Hne. by apply elem_of_singleton.
Qed.

Lemma lookup_cancelled_at o (m : gmap nat ImageLoad) u l :
  cancelled_at o m !! u = Some l ->
  (o = Some u /\ cancelled l = true /\ is_Some (m !! u)) \/
  (o <> Some u /\ m !! u = Some l).
Proof.
  destruct o as [v|]; cbn; [|by right].
  intros H. destruct (decide (v = u)) as [->|Hne].
  - rewrite lookup_alter_eq in H. destruct (m !! u) as [l0|] eqn:E; [|done].
    left. injection H as <-. eauto.
  - rewrite lookup_alter_ne in H by done. right. split; [congruence | done].
Qed.

(** * The invariants hold in every reachable state *)

Lemma initial_Inv : Inv initial.
Proof.
  split; split; cbn; try done; try (intros; simplify_map_eq; set_solver).
Qed.

Lemma Resources_ext s s' :
  previewCleanup s' = previewCleanup s -> decodeCleanup s' = decodeCleanup s ->
  nextUrl s' = nextUrl s -> liveUrls s' = liveUrls s -> images s' = images s ->
  Resources s -> Resources s'.
Proof.
  intros Hp Hd Hn Hl Hi [Hc Ho Hfu Hfi Hfp Hfd].
  split; rewrite ?Hp, ?Hd, ?Hn, ?Hl, ?Hi; assumption.
Qed.

Lemma commit_select_Inv s file :
  Resources s -> depsChanged s = true -> selectedFile s = Some file -> Inv (commit s).
Proof.
  intros [Hc Ho Hfu Hfi Hfp Hfd] Hd Hs. rewrite (commit_select s file Hd Hs).
  split; split; projs; try done.
  - intros u l Hl Hn. destruct (decide (u = S (nextUrl s))) as [->|Hne]; [done|].
    rewrite lookup_insert_ne in Hl by done.
    apply lookup_cancelled_at in Hl as [(_ & Ht & _)|[Hcur Hl]]; [congruence|].
    destruct Hcur. eauto.
  - intros u [->%elem_of_singleton|[->%elem_of_singleton|H]%elem_of_union]%elem_of_union;
      [by right|by left|].
    apply elem_of_revoked in H as [[Hl Hp]%elem_of_revoked Hd'].
    destruct (Ho u Hl); congruence.
  - intros u [->%elem_of_singleton|[->%elem_of_singleton|H]%elem_of_union]%elem_of_union;
      [lia|lia|].
    apply elem_of_revoked in H as [[Hl _]%elem_of_revoked _]. specialize (Hfu u Hl). lia.
  - intros u l Hl. destruct (decide (u = S (nextUrl s))) as [->|Hne]; [lia|].
    rewrite lookup_insert_ne in Hl by done.
    apply lookup_cancelled_at in Hl as [(_ & _ & [l0 Hl])|[_ Hl]];
      specialize (Hfi u _ Hl); lia.
  - intros u [= <-]. lia.
  - intros u [= <-]. lia.
  - intros u l Hl Hn. destruct (decide (u = S (nextUrl s))) as [->|Hne].
    + rewrite lookup_insert_eq in Hl. by injection Hl as <-.
    + rewrite lookup_insert_ne in Hl by done.
      apply lookup_cancelled_at in Hl as [(_ & Ht & _)|[Hcur Hl]]; [congruence|].
      destruct Hcur. eauto.
  - by left.
Qed.

Lemma commit_clear_Inv s :
  Resources s -> depsChanged s = true -> selectedFile s = None -> Inv (commit s).
Proof.
  intros [Hc Ho Hfu Hfi Hfp Hfd] Hd Hs. rewrite (commit_clear s Hd Hs).
  split; split; projs; try done.
  - intros u l Hl Hn.
    apply lookup_cancelled_at in Hl as [(_ & Ht & _)|[Hcur Hl]]; [congruence|].
    destruct Hcur. eauto.
  - intros u H.
    apply elem_of_revoked in H as [[Hl Hp]%elem_of_revoked Hd'].
    destruct (Ho u Hl); congruence.
  - intros u H.
    apply elem_of_revoked in H as [[Hl _]%elem_of_revoked _]. by apply Hfu.
  - intros u l Hl.
    apply lookup_cancelled_at in Hl as [(_ & _ & [l0 Hl])|[_ Hl]]; by eapply Hfi.
  - intros u l Hl Hn.
    apply lookup_cancelled_at in Hl as [(_ & Ht & _)|[Hcur Hl]]; [congruence|].
    destruct Hcur. eauto.
  - by left.
Qed.

Lemma Display_ext s s' :
  selectedFile s' = selectedFile s -> imageUrl s' = imageUrl s ->
  decodeResult s' = decodeResult s -> decodeError s' = decodeError s ->
  isDecoding s' = isDecoding s -> depsChanged s' = depsChanged s ->
  images s' = images s ->
  Display s -> Display s'.
Proof.
  intros Hs Hu Hr He Hd Hc Hi [H1 H2 H3 H4 H5].
  split; rewrite ?Hs, ?Hu, ?Hr, ?He, ?Hd, ?Hc, ?Hi; assumption.
Qed.

(** ** The shapes a handler's result can take *)

Lemma handlePaste_cases items s :
  (exists message, handlePaste items s = setErrorMessage (Some message) s) \/
  (exists file, validateFile file = None /\
     handlePaste items s = setSelectedFile (Some file) (setErrorMessage None s)).
Proof.
  unfold handlePaste. destruct items as [items|]; [|by left; eexists].
  destruct (Nat.eqb (List.length items) 0); [by left; eexists|].
  destruct (List.find _ items) as [imageItem|]; [|by left; eexists].
  destruct (getAsFile imageItem) as [file|]; [|by left; eexists].
  destruct (validateFile file) as [validationError|] eqn:Hvalid; [by left; eexists|].
  right. by exists file.
Qed.

Lemma handleFileChange_cases files s :
  handleFileChange files s = s \/
  (exists validationError,
     handleFileChange files s =
       setInputValue "" (setSelectedFile None (setErrorMessage (Some validationError) s))) \/
  (exists file, validateFile file = None /\
     handleFileChange files s = setSelectedFile (Some file) (setErrorMessage None s)).
Proof.
  unfold handleFileChange. destruct (head files) as [file|]; [|by left].
  destruct (validateFile file) as [validationError|] eqn:Hvalid.
  - right; left. by eexists.
  - right; right. by exists file.
Qed.

Lemma depsChanged_select file s : depsChanged (setSelectedFile (Some file) s) = true.
Proof. cbn. destruct (depsChanged s), (selectedFile s); reflexivity. Qed.

(** What a load callback does while its load is in flight. *)
Lemma callback_cases e url env s :
  callback_url e = Some url -> images s !! url = Some env ->
  let s0 := setImages (delete url (images s)) s in
  if cancelled env then dispatch e s = Returned (revokeObjectURL url s0)
  else
    (exists exn, dispatch e s = Threw exn s0) \/
    (exists message,
       dispatch e s =
         Returned (revokeObjectURL url (setIsDecoding false (setDecodeError (Some message) s0)))) \/
    (exists data,
       dispatch e s =
         Returned (revokeObjectURL url (setIsDecoding false (setDecodeResult (Some data) s0)))).
Proof.
  intros Hurl Henv s0.
  destruct e as [| | |u w h context allocated code|u]; try discriminate Hurl;
    injection Hurl as ->; cbn [dispatch]; rewrite Henv; fold s0.
  - unfold image_onload. destruct (cancelled env); [done|].
    destruct context; cbn [negb]; [|right; left; by eexists].
    destruct (getImageData_throws w h allocated) as [exn|]; [left; by eexists|].
    destruct code as [data|]; [right; right; by eexists | right; left; by eexists].
  - unfold image_onerror. destruct (cancelled env); [done|].
    right; left; by eexists.
Qed.

Lemma callback_not_in_flight e url s :
  callback_url e = Some url -> images s !! url = None -> dispatch e s = Returned s.
Proof.
  intros Hurl Hnone.
  destruct e; try discriminate Hurl; injection Hurl as ->; cbn [dispatch];
    by rewrite Hnone.
Qed.

(** ** Preservation *)

(** A handler that leaves the browser resources alone: either it changed
    the selection and the effects rebuild the display, or the display it
    leaves is already consistent. *)
Lemma handler_Inv s s1 :
  Resources s ->
  previewCleanup s1 = previewCleanup s -> decodeCleanup s1 = decodeCleanup s ->
  nextUrl s1 = nextUrl s -> liveUrls s1 = liveUrls s -> images s1 = images s ->
  depsChanged s1 = true \/ (depsChanged s1 = false /\ Display s1) ->
  Inv (commit s1).
Proof.
  intros HR Hp Hd Hn Hl Hi Hcase.
  pose proof (Resources_ext s s1 Hp Hd Hn Hl Hi HR) as HR1.
  destruct Hcase as [Hch|[Hsame HD1]].
  - destruct (selectedFile s1) as [file|] eqn:Hsel.
    + by apply (commit_select_Inv s1 file).
    + by apply commit_clear_Inv.
  - rewrite commit_same by done. by split.
Qed.

Lemma cleared_Display s s1 :
  Display s -> selectedFile s = None ->
  selectedFile s1 = None -> imageUrl s1 = imageUrl s -> decodeResult s1 = None ->
  decodeError s1 = None -> isDecoding s1 = false -> depsChanged s1 = false ->
  images s1 = images s ->
  Display s1.
Proof.
  intros [H1 H2 H3 H4 H5] Hsel Hs Hu Hr He Hd Hc Hi.
  destruct (H5 Hsel) as (Hu0 & _ & _ & Hdec).
  split; rewrite ?Hs, ?Hu, ?Hr, ?He, ?Hd, ?Hc, ?Hi; try done.
  - intros u l Hl Hn. destruct (H2 u l Hl Hn) as [? _]. congruence.
  - by left.
Qed.

Lemma Resources_shrink s s1 url :
  previewCleanup s1 = previewCleanup s -> decodeCleanup s1 = decodeCleanup s ->
  nextUrl s1 = nextUrl s -> liveUrls s1 ⊆ liveUrls s ->
  images s1 = delete url (images s) ->
  Resources s -> Resources s1.
Proof.
  intros Hp Hd Hn Hl Hi [Hc Ho Hfu Hfi Hfp Hfd].
  split; rewrite ?Hp, ?Hd, ?Hn, ?Hi; try assumption.
  - intros u l [_ Hu]%lookup_delete_Some. by apply Hc.
  - intros u Hu. apply Ho. by apply Hl.
  - intros u Hu. apply Hfu. by apply Hl.
  - intros u l [_ Hu]%lookup_delete_Some. by eapply Hfi.
Qed.

(** A callback of a cancelled load, or one that threw, leaves the cells. *)
Lemma stale_Display s s1 url :
  selectedFile s1 = selectedFile s -> imageUrl s1 = imageUrl s ->
  decodeResult s1 = decodeResult s -> decodeError s1 = decodeError s ->
  isDecoding s1 = isDecoding s -> depsChanged s1 = depsChanged s ->
  images s1 = delete url (images s) ->
  Display s -> Display s1.
Proof.
  intros Hs Hu Hr He Hd Hc Hi [H1 H2 H3 H4 H5].
  split; rewrite ?Hs, ?Hu, ?Hr, ?He, ?Hd, ?Hc, ?Hi; try assumption.
  intros u l [_ Hl]%lookup_delete_Some. by apply (H2 u).
Qed.

(** The callback of the uncancelled load settles the decode. *)
Lemma settled_Display s s1 url env :
  Resources s -> Display s ->
  images s !! url = Some env -> cancelled env = false ->
  selectedFile s1 = selectedFile s -> imageUrl s1 = imageUrl s ->
  decodeResult s1 = decodeResult s \/ decodeError s1 = decodeError s ->
  isDecoding s1 = false -> depsChanged s1 = depsChanged s ->
  images s1 = delete url (images s) ->
  Display s1.
Proof.
  intros [Hc _ _ _ _ _] [H1 H2 H3 H4 H5] Henv Hn Hs Hu Hone Hd Hch Hi.
  destruct (H2 _ _ Henv Hn) as [Hsel Hdec]. destruct (H3 Hdec) as [Hr He].
  pose proof (Hc _ _ Henv Hn) as Hcur.
  split; rewrite ?Hs, ?Hu, ?Hd, ?Hch, ?Hi; try done.
  - intros u l [Hne Hl]%lookup_delete_Some Hl'. specialize (Hc _ _ Hl Hl'). congruence.
  - destruct Hone as [->| ->]; [left|right]; done.
  - rewrite Hsel. discriminate.
Qed.

Lemma step_Inv s e : Inv s -> Inv (step s e).
Proof.
  intros [HR HD]. pose proof (dis_committed s HD) as Hcom. unfold step.
  destruct (callback_url e) as [url|] eqn:Hurl.
  - (* load callbacks *)
    destruct (images s !! url) as [env|] eqn:Henv.
    + pose proof (callback_cases e url env s Hurl Henv) as Hcases. cbv zeta in Hcases.
      destruct (cancelled env) eqn:Hcancelled.
      * rewrite Hcases. cbn [state_of]. rewrite commit_same by exact Hcom. split.
        -- eapply (Resources_shrink s _ url); [reflexivity..| |reflexivity|exact HR].
           cbn. apply subseteq_difference_l. done.
        -- by eapply (stale_Display s _ url); [reflexivity..|].
      * destruct Hcases as [[exn ->]|[[message ->]|[data ->]]]; cbn [state_of];
          rewrite commit_same by exact Hcom; split.
        -- by eapply (Resources_shrink s _ url); [reflexivity..|].
        -- by eapply (stale_Display s _ url); [reflexivity..|].
        -- eapply (Resources_shrink s _ url); [reflexivity..| |reflexivity|exact HR].
           cbn. apply subseteq_difference_l. done.
        -- eapply (settled_Display s _ url env); try done. by left.
        -- eapply (Resources_shrink s _ url); [reflexivity..| |reflexivity|exact HR].
           cbn. apply subseteq_difference_l. done.
        -- eapply (settled_Display s _ url env); try done. by right.
    + rewrite (callback_not_in_flight e url s Hurl Henv). cbn [state_of].
      rewrite commit_same by exact Hcom. by split.
  - (* user events *)
    destruct e as [files|items| | |]; try discriminate Hurl; cbn [dispatch state_of].
    + set (s0 := setInputValue (fakepath files) s).
      destruct (handleFileChange_cases files s0)
        as [->|[[validationError ->]|[file [Hvalid ->]]]]; subst s0.
      * apply (handler_Inv s); try done. right. split; [exact Hcom|].
        by eapply (Display_ext s); [reflexivity..|].
      * apply (handler_Inv s); try done.
        destruct (selectedFile s) as [f|] eqn:Hsel.
        -- left. cbn. by rewrite Hcom, Hsel.
        -- right. split; [cbn; by rewrite Hcom, Hsel|].
           eapply (Display_ext s); try done; cbn; by rewrite ?Hcom, ?Hsel.
      * apply (handler_Inv s); try done. left. apply depsChanged_select.
    + destruct (handlePaste_cases items s) as [[message ->]|[file [Hvalid ->]]].
      * apply (handler_Inv s); try done. right. split; [exact Hcom|].
        by eapply (Display_ext s); [reflexivity..|].
      * apply (handler_Inv s); try done. left. apply depsChanged_select.
    + apply (handler_Inv s); try done.
      destruct (selectedFile s) as [f|] eqn:Hsel.
      * left. cbn. by rewrite Hcom, Hsel.
      * right. split; [cbn; by rewrite Hcom, Hsel|].
        eapply (cleared_Display s); try done; cbn; by rewrite ?Hcom, ?Hsel.
Qed.

Lemma run_Inv events s : Inv s -> Inv (run events s).
Proof.
  revert s. induction events as [|e events IH]; intros s Hs; [done|].
  cbn. apply IH. by apply step_Inv.
Qed.

Lemma reachable_Inv events : Inv (run events initial).
Proof. apply run_Inv, initial_Inv. Qed.

(** * Load callbacks as settlements *)

Lemma dispatch_callback e url env s :
  callback_url e = Some url -> images s !! url = Some env ->
  dispatch e s = settle url (settlement e env) (setImages (delete url (images s)) s).
Proof.
  intros Hurl Henv.
  destruct e as [| | |u w h context allocated code|u]; try discriminate Hurl;
    injection Hurl as ->; cbn [dispatch]; rewrite Henv.
  - unfold image_onload, settlement. destruct (cancelled env); [done|].
    destruct context; cbn [negb]; [|done].
    destruct (getImageData_throws w h allocated) as [exn|]; [done|]. by destruct code.
  - unfold image_onerror, settlement. by destruct (cancelled env).
Qed.

Lemma dispatch_user_resources e s :
  callback_url e = None ->
  let s1 := state_of (dispatch e s) in
  previewCleanup s1 = previewCleanup s /\ decodeCleanup s1 = decodeCleanup s /\
  nextUrl s1 = nextUrl s /\ liveUrls s1 = liveUrls s /\ images s1 = images s.
Proof.
  intros Hurl. destruct e as [files|items| | |]; try discriminate Hurl;
    cbn [dispatch state_of].
  - destruct (handleFileChange_cases files (setInputValue (fakepath files) s))
      as [->|[[validationError ->]|[file [_ ->]]]]; done.
  - destruct (handlePaste_cases items s) as [[message ->]|[file [_ ->]]]; done.
  - done.
Qed.

Lemma dispatch_callback_committed e url s :
  callback_url e = Some url ->
  depsChanged (state_of (dispatch e s)) = depsChanged s.
Proof.
  intros Hurl. destruct (images s !! url) as [env|] eqn:Henv.
  - rewrite (dispatch_callback e url env s Hurl Henv).
    by destruct (settlement e env).
  - by rewrite (callback_not_in_flight e url s Hurl Henv).
Qed.

(** In a reachable state a callback's commit runs no effect. *)
Lemma step_callback e url s :
  depsChanged s = false -> callback_url e = Some url ->
  step s e = state_of (dispatch e s).
Proof.
  intros Hcom Hurl. unfold step. apply commit_same.
  by rewrite (dispatch_callback_committed e url s Hurl).
Qed.

(** * Stale callbacks *)

Lemma render_hooks URL_new s s' : hooks s = hooks s' -> render URL_new s = render URL_new s'.
Proof.
  unfold hooks. intros [= Hs Hu Hm Hr He Hd]. unfold render.
  by rewrite Hs, Hu, Hm, Hr, He, Hd.
Qed.

Lemma Similar_refl s : Inv s -> Similar s s.
Proof.
  intros [HR HD]. split; try done.
  - split; apply (dis_committed s HD).
  - apply (res_current s HR).
  - apply (res_current s HR).
Qed.

Lemma Similar_sym s s' : Similar s s' -> Similar s' s.
Proof.
  intros [Hh [Hc Hc'] Hcl Hl Hst Hst']. split; try done.
  intros u Hu. symmetry. apply Hl. by rewrite Hcl.
Qed.

Lemma step_callback_cleanup e url s :
  depsChanged s = false -> callback_url e = Some url ->
  decodeCleanup (step s e) = decodeCleanup s.
Proof.
  intros Hcom Hurl. rewrite (step_callback e url s Hcom Hurl).
  destruct (images s !! url) as [env|] eqn:Henv.
  - rewrite (dispatch_callback e url env s Hurl Henv). by destruct (settlement e env).
  - by rewrite (callback_not_in_flight e url s Hurl Henv).
Qed.

(** The callback of a load that is not the current one changes no cell. *)
Lemma Similar_stale s s' e url :
  Similar s s' -> callback_url e = Some url -> decodeCleanup s <> Some url ->
  Similar (step s e) s'.
Proof.
  intros [Hh [Hc Hc'] Hcl Hl Hst Hst'] Hurl Hne.
  rewrite (step_callback e url s Hc Hurl).
  destruct (images s !! url) as [env|] eqn:Henv.
  - rewrite (dispatch_callback e url env s Hurl Henv).
    destruct (cancelled env) eqn:Hcancelled.
    + unfold settlement. rewrite Hcancelled. cbn [settle state_of].
      split; try done.
      * intros u Hu. cbn in Hu |- *. rewrite <- (Hl u Hu).
        apply lookup_delete_ne. congruence.
      * intros u l. cbn. intros [_ Hin]%lookup_delete_Some. by apply Hst.
    + destruct Hne. by apply (Hst url env).
  - rewrite (callback_not_in_flight e url s Hurl Henv). by split.
Qed.

(** The callback of the current load does the same to two similar states. *)
Lemma Similar_current s s' e url :
  Similar s s' -> callback_url e = Some url -> decodeCleanup s = Some url ->
  Similar (step s e) (step s' e).
Proof.
  intros [Hh [Hc Hc'] Hcl Hl Hst Hst'] Hurl Hcur.
  rewrite (step_callback e url s Hc Hurl), (step_callback e url s' Hc' Hurl).
  pose proof (Hl url Hcur) as Hsame.
  unfold hooks in Hh. injection Hh as Hs Hu Hm Hr He Hd.
  destruct (images s !! url) as [env|] eqn:Henv.
  - symmetry in Hsame.
    rewrite (dispatch_callback e url env s Hurl Henv),
      (dispatch_callback e url env s' Hurl Hsame).
    assert (forall u l, delete url (images s) !! u = Some l -> cancelled l = false -> False)
      as Hnone.
    { intros u l [Hneq Hin]%lookup_delete_Some Hn.
      specialize (Hst u l Hin Hn). congruence. }
    assert (forall u l, delete url (images s') !! u = Some l -> cancelled l = false -> False)
      as Hnone'.
    { intros u l [Hneq Hin]%lookup_delete_Some Hn.
      specialize (Hst' u l Hin Hn). congruence. }
    destruct (settlement e env) as [|exn|message|data]; cbn [settle state_of];
      (split;
       [ unfold hooks; cbn; congruence
       | done
       | done
       | intros u0 Hu0; cbn in Hu0; cbn; rewrite Hcur in Hu0; injection Hu0 as <-;
         by rewrite !lookup_delete_eq
       | intros u0 l Hin Hn; destruct (Hnone u0 l Hin Hn)
       | intros u0 l Hin Hn; destruct (Hnone' u0 l Hin Hn) ]).
  - symmetry in Hsame.
    rewrite (callback_not_in_flight e url s Hurl Henv),
      (callback_not_in_flight e url s' Hurl Hsame).
    cbn [state_of]. split; [unfold hooks; congruence | by split | done ..].
Qed.

Lemma is_callback_url e : is_callback e = true -> exists url, callback_url e = Some url.
Proof. destruct e; try discriminate; intros _; by eexists. Qed.

Lemma Similar_run post keep s s' :
  Similar s s' ->
  Forall (fun e => is_callback e = true) post ->
  (forall e url, decodeCleanup s = Some url -> callback_url e = Some url -> keep e = true) ->
  Similar (run post s) (run (List.filter keep post) s').
Proof.
  intros Hsim Hpost. revert s s' Hsim.
  induction Hpost as [|e post He Hpost IH]; intros s s' Hsim Hkeep; [done|].
  destruct (is_callback_url e He) as [url Hurl].
  pose proof (sim_committed s s' Hsim) as [Hc Hc'].
  assert (forall e0 url0, decodeCleanup (step s e) = Some url0 ->
            callback_url e0 = Some url0 -> keep e0 = true) as Hkeep'.
  { intros e0 url0. rewrite (step_callback_cleanup e url s Hc Hurl). apply Hkeep. }
  cbn [run fold_left List.filter].
  destruct (decide (decodeCleanup s = Some url)) as [Hcur|Hne].
  - rewrite (Hkeep e url Hcur Hurl). cbn [fold_left].
    apply IH; [|done]. by apply (Similar_current s s' e url).
  - assert (Similar (step s e) s') as Hleft by by apply (Similar_stale s s' e url).
    destruct (keep e); cbn [fold_left]; apply IH; try done.
    apply Similar_sym. apply (Similar_stale s' (step s e) e url); [|done|].
    + by apply Similar_sym.
    + by rewrite <- (sim_cleanup s s' Hsim).
Qed.

(** * Replacing or clearing the selection *)

Lemma changes_selection_commit s e :
  depsChanged s = false -> changes_selection s e = true ->
  exists s1,
    step s e = commit s1 /\ depsChanged s1 = true /\
    previewCleanup s1 = previewCleanup s /\ decodeCleanup s1 = decodeCleanup s /\
    nextUrl s1 = nextUrl s /\ liveUrls s1 = liveUrls s /\ images s1 = images s.
Proof.
  intros Hcom Hch. unfold changes_selection in Hch.
  destruct (callback_url e) as [url|] eqn:Hurl.
  - rewrite (dispatch_callback_committed e url s Hurl) in Hch. congruence.
  - exists (state_of (dispatch e s)). split; [done|]. split; [done|].
    by apply dispatch_user_resources.
Qed.

(** The cleanup of the decode effect: its URL is revoked, its load (when
    still in flight) is cancelled, and the next run of the effect, if any,
    works on a new URL. *)
Lemma cleanup_supersedes s e url :
  Inv s -> decodeCleanup s = Some url -> changes_selection s e = true ->
  let s' := step s e in
  (url ∉ liveUrls s') /\ decodeCleanup s' <> Some url /\
  (selectedFile s' = None -> decodeCleanup s' = None) /\
  (forall load, images s !! url = Some load -> images s' !! url = Some (cancel load)).
Proof.
  intros [HR HD] Hcur Hch.
  destruct (changes_selection_commit s e (dis_committed s HD) Hch)
    as (s1 & Hstep & Hdeps & Hp & Hd & Hn & Hl & Hi).
  pose proof (res_fresh_decode s HR url Hcur) as Hfresh.
  cbv zeta. rewrite Hstep.
  destruct (selectedFile s1) as [file|] eqn:Hsel.
  - rewrite (commit_select s1 file Hdeps Hsel). projs.
    rewrite Hp, Hd, Hn, Hl, Hi, Hcur. cbn [revoked cancelled_at].
    split; [|split; [|split]].
    + intros [Hin|[Hin|Hin]%elem_of_union]%elem_of_union.
      * apply elem_of_singleton in Hin. lia.
      * apply elem_of_singleton in Hin. lia.
      * apply elem_of_difference in Hin as [_ Hin]. apply Hin. by apply elem_of_singleton.
    + intros [= H]. lia.
    + discriminate.
    + intros load Hload. rewrite lookup_insert_ne by lia.
      by rewrite lookup_alter_eq, Hload.
  - rewrite (commit_clear s1 Hdeps Hsel). projs.
    rewrite Hp, Hd, Hl, Hi, Hcur. cbn [revoked cancelled_at].
    split; [|split; [|split]]; try done.
    + intros [_ Hin]%elem_of_difference. apply Hin. by apply elem_of_singleton.
    + intros load Hload. by rewrite lookup_alter_eq, Hload.
Qed.

Lemma for_current_none s post :
  decodeCleanup s = None -> List.filter (for_current s) post = [].
Proof.
  intros Hnone. induction post as [|e post IH]; [done|].
  cbn [List.filter]. unfold for_current at 1. by rewrite Hnone.
Qed.

(** C1. Candidate A's decode is in flight (its load is there, uncancelled)
    when the next event replaces or clears the selection.  From then on A's
    load is cancelled, and whatever load callbacks fire afterwards, in
    whatever order, the six state cells, hence the screen, are what they
    would be had A's callbacks never fired: they are those produced by the
    callbacks of the new selection's load alone, and stay as the clearing
    left them when nothing is selected. *)
Theorem stale_decode_discarded (pre post : list Event) (next : Event)
    (urlA : ObjectURL) (loadA : ImageLoad) :
  let sA := run pre initial in
  images sA !! urlA = Some loadA -> cancelled loadA = false ->
  changes_selection sA next = true ->
  Forall (fun e => is_callback e = true) post ->
  let sB := step sA next in
  images sB !! urlA = Some (cancel loadA) /\
  decodeCleanup sB <> Some urlA /\
  hooks (run post sB) =
    hooks (run (List.filter (fun e => negb (callback_of urlA e)) post) sB) /\
  hooks (run post sB) = hooks (run (List.filter (for_current sB) post) sB) /\
  (forall URL_new,
     render URL_new (run post sB) =
     render URL_new (run (List.filter (for_current sB) post) sB)) /\
  (selectedFile sB = None -> hooks (run post sB) = hooks sB).
Proof.
  intros sA HloadA HliveA Hnext Hpost sB.
  pose proof (reachable_Inv pre) as HinvA. fold sA in HinvA.
  pose proof (step_Inv sA next HinvA) as HinvB. fold sB in HinvB.
  pose proof (res_current sA (proj1 HinvA) urlA loadA HloadA HliveA) as HcurA.
  destruct (cleanup_supersedes sA next urlA HinvA HcurA Hnext) as (_ & Hne & Hnone & Hcancel).
  fold sB in Hne, Hnone, Hcancel.
  assert (hooks (run post sB) = hooks (run (List.filter (for_current sB) post) sB)) as Hcurrent.
  { apply sim_hooks, Similar_run; [by apply Similar_refl | done |].
    intros e url Hcur Hurl. unfold for_current, callback_of. rewrite Hcur, Hurl.
    apply Nat.eqb_refl. }
  split; [by apply Hcancel|]. split; [done|]. split; [|split; [done|split]].
  - apply sim_hooks, Similar_run; [by apply Similar_refl | done |].
    intros e url Hcur Hurl. unfold callback_of. rewrite Hurl.
    apply negb_true_iff, Nat.eqb_neq. congruence.
  - intros URL_new. by apply render_hooks.
  - intros Hsel. rewrite Hcurrent. by rewrite (for_current_none sB post (Hnone Hsel)).
Qed.

Example select_A_then_B :
  let trace :=
    [Change [example_png]; Change [example_jpeg];
     ImgLoad 1 8 8 true true (Some "from A"); ImgLoad 3 8 8 true true (Some "from B")] in
  outcome (run trace initial) = Some (Success "from B").
Proof. vm_compute. reflexivity. Qed.

Example select_A_then_B_late_A :
  let trace :=
    [Change [example_png]; Change [example_jpeg];
     ImgLoad 3 8 8 true true (Some "from B"); ImgLoad 1 8 8 true true (Some "from A")] in
  outcome (run trace initial) = Some (Success "from B").
Proof. vm_compute. reflexivity. Qed.

Lemma stale_decode_discarded_witness :
  let sB := step (run [Change [example_png]] initial) (Change [example_jpeg]) in
  let post := [ImgLoad 1 8 8 true true (Some "from A"); ImgLoad 3 8 8 true true None; ImgError 1] in
  images sB !! 1 = Some (cancel (mkImageLoad example_png false)) /\
  decodeCleanup sB <> Some 1 /\
  hooks (run post sB) =
    hooks (run (List.filter (fun e => negb (callback_of 1 e)) post) sB) /\
  hooks (run post sB) = hooks (run (List.filter (for_current sB) post) sB) /\
  (forall URL_new,
     render URL_new (run post sB) =
     render URL_new (run (List.filter (for_current sB) post) sB)) /\
  (selectedFile sB = None -> hooks (run post sB) = hooks sB).
Proof.
  apply (stale_decode_discarded [Change [example_png]]
           [ImgLoad 1 8 8 true true (Some "from A"); ImgLoad 3 8 8 true true None; ImgError 1]
           (Change [example_jpeg]) 1 (mkImageLoad example_png false)).
  - vm_compute. reflexivity.
  - reflexivity.
  - vm_compute. reflexivity.
  - repeat constructor.
Defined.

(** * Settling the decode *)

(** The callback of the current load, by the branch it takes. *)
Lemma settle_current s e url env :
  Inv s -> images s !! url = Some env -> cancelled env = false ->
  callback_url e = Some url ->
  let s' := step s e in
  (isDecoding s = true /\ decodeResult s = None /\ decodeError s = None) /\
  match settlement e env with
  | Stale => False
  | Raises _ => throws (dispatch e s) = true /\ hooks s' = hooks s
  | Fails message =>
      throws (dispatch e s) = false /\
      isDecoding s' = false /\ decodeResult s' = None /\ decodeError s' = Some message
  | Decodes data =>
      throws (dispatch e s) = false /\
      isDecoding s' = false /\ decodeResult s' = Some data /\ decodeError s' = None
  end.
Proof.
  intros [HR HD] Henv Hlive Hurl.
  destruct (dis_inflight s HD url env Henv Hlive) as [_ Hdec].
  destruct (dis_pending s HD Hdec) as [Hres Herr].
  cbv zeta. split; [done|].
  rewrite (step_callback e url s (dis_committed s HD) Hurl),
    (dispatch_callback e url env s Hurl Henv).
  assert (settlement e env <> Stale) as Hnot_stale.
  { unfold settlement. rewrite Hlive.
    destruct e as [| | |u w h context allocated code|u]; try discriminate Hurl.
    - destruct context; cbn [negb]; [|done].
      destruct (getImageData_throws w h allocated) as [exn|]; [done|]. by destruct code.
    - done. }
  destruct (settlement e env) as [|exn|message|data]; [done|..]; cbn; done.
Qed.

Lemma outcome_pending s :
  isDecoding s = true -> decodeResult s = None -> decodeError s = None ->
  outcome s = Some Pending.
Proof. unfold outcome. by intros -> -> ->. Qed.

Lemma outcome_failed s message :
  isDecoding s = false -> decodeResult s = None -> decodeError s = Some message ->
  outcome s =
    if String.eqb message MSG_CODE_NOT_FOUND then Some NotFound
    else if String.eqb message MSG_IMAGE_LOAD_FAILED then Some LoadError
    else if String.eqb message MSG_CONTEXT_UNAVAILABLE then Some ContextError
    else None.
Proof. unfold outcome. by intros -> -> ->. Qed.

Lemma outcome_decoded s data :
  isDecoding s = false -> decodeResult s = Some data -> decodeError s = None ->
  outcome s = Some (Success data).
Proof. unfold outcome. by intros -> -> ->. Qed.

Lemma getImageData_returns (w h : N) (allocated : bool) :
  getImageData_throws w h allocated = None <->
  w <> 0%N /\ h <> 0%N /\ allocated = true.
Proof.
  unfold getImageData_throws.
  destruct (N.eqb_spec w 0) as [->|Hw]; cbn [orb]; [by split; [|intros [[] _]]|].
  destruct (N.eqb_spec h 0) as [->|Hh]; [by split; [|intros (_ & [] & _)]|].
  destruct allocated; [by split | by split; [|intros (_ & _ & ?)]].
Qed.

(** C6, as the code has it.  Once the start of a decode has been rendered
    its outcome is Pending.  Its image's error callback returns and leaves
    LoadError; its load callback returns and leaves ContextError when no 2D
    context is available, and, when [getImageData] returns the pixels,
    NotFound when jsQR finds no code in them and Success(text) when it
    finds one. *)
Theorem decode_settles (events : list Event) (url : ObjectURL) (env : ImageLoad) :
  let s := run events initial in
  images s !! url = Some env -> cancelled env = false ->
  outcome s = Some Pending /\
  (throws (dispatch (ImgError url) s) = false /\
   outcome (step s (ImgError url)) = Some LoadError) /\
  (forall w h allocated code,
     throws (dispatch (ImgLoad url w h false allocated code) s) = false /\
     outcome (step s (ImgLoad url w h false allocated code)) = Some ContextError) /\
  (forall w h allocated, getImageData_throws w h allocated = None ->
     (throws (dispatch (ImgLoad url w h true allocated None) s) = false /\
      outcome (step s (ImgLoad url w h true allocated None)) = Some NotFound) /\
     (forall text,
        throws (dispatch (ImgLoad url w h true allocated (Some text)) s) = false /\
        outcome (step s (ImgLoad url w h true allocated (Some text))) =
          Some (Success text))).
Proof.
  intros s Henv Hlive. pose proof (reachable_Inv events) as Hinv. fold s in Hinv.
  split; [|split; [|split]].
  - destruct (settle_current s (ImgError url) url env Hinv Henv Hlive eq_refl)
      as [(Hd & Hr & He) _]. by apply outcome_pending.
  - destruct (settle_current s (ImgError url) url env Hinv Henv Hlive eq_refl)
      as [_ Hsettle].
    unfold settlement in Hsettle. rewrite Hlive in Hsettle.
    destruct Hsettle as (Hret & Hd & Hr & He). split; [done|].
    by rewrite (outcome_failed _ _ Hd Hr He).
  - intros w h allocated code.
    destruct (settle_current s (ImgLoad url w h false allocated code) url env
                Hinv Henv Hlive eq_refl) as [_ Hsettle].
    unfold settlement in Hsettle. rewrite Hlive in Hsettle. cbn [negb] in Hsettle.
    destruct Hsettle as (Hret & Hd & Hr & He). split; [done|].
    by rewrite (outcome_failed _ _ Hd Hr He).
  - intros w h allocated Hpixels. split; [|intros text].
    + destruct (settle_current s (ImgLoad url w h true allocated None) url env
                  Hinv Henv Hlive eq_refl) as [_ Hsettle].
      unfold settlement in Hsettle.
      rewrite Hlive, Hpixels in Hsettle. cbn [negb] in Hsettle.
      destruct Hsettle as (Hret & Hd & Hr & He). split; [done|].
      by rewrite (outcome_failed _ _ Hd Hr He).
    + destruct (settle_current s (ImgLoad url w h true allocated (Some text)) url env
                  Hinv Henv Hlive eq_refl) as [_ Hsettle].
      unfold settlement in Hsettle.
      rewrite Hlive, Hpixels in Hsettle. cbn [negb] in Hsettle.
      destruct Hsettle as (Hret & Hd & Hr & He). split; [done|].
      by apply outcome_decoded.
Qed.

(** Whatever the image's size, the context, the pixel buffer and jsQR's
    answer, the load callback of the current decode never leaves
    LoadError. *)
Lemma onload_never_load_error (events : list Event) (url : ObjectURL) (env : ImageLoad)
    (w h : N) (context allocated : bool) (code : option string) :
  let s := run events initial in
  images s !! url = Some env -> cancelled env = false ->
  outcome (step s (ImgLoad url w h context allocated code)) <> Some LoadError.
Proof.
  intros s Henv Hlive. pose proof (reachable_Inv events) as Hinv. fold s in Hinv.
  destruct (settle_current s (ImgLoad url w h context allocated code) url env
              Hinv Henv Hlive eq_refl) as [(Hd0 & Hr0 & He0) Hsettle].
  unfold settlement in Hsettle. rewrite Hlive in Hsettle.
  destruct context; cbn [negb] in Hsettle.
  - destruct (getImageData_throws w h allocated) as [exn|].
    + destruct Hsettle as [_ Hhooks]. unfold hooks in Hhooks.
      injection Hhooks as _ _ _ Hr He Hd.
      rewrite (outcome_pending _ (eq_trans Hd Hd0) (eq_trans Hr Hr0) (eq_trans He He0)).
      discriminate.
    + destruct code as [data|]; destruct Hsettle as (_ & Hd & Hr & He).
      * rewrite (outcome_decoded _ _ Hd Hr He). discriminate.
      * rewrite (outcome_failed _ _ Hd Hr He). discriminate.
  - destruct Hsettle as (_ & Hd & Hr & He).
    rewrite (outcome_failed _ _ Hd Hr He). discriminate.
Qed.

Lemma decode_settles_witness :
  let s := run [Change [example_png]] initial in
  outcome s = Some Pending /\
  outcome (step s (ImgError 1)) = Some LoadError /\
  outcome (step s (ImgLoad 1 0 0 false true None)) = Some ContextError /\
  outcome (step s (ImgLoad 1 21 21 true true None)) = Some NotFound /\
  outcome (step s (ImgLoad 1 21 21 true true (Some "hello"))) = Some (Success "hello").
Proof.
  destruct (decode_settles [Change [example_png]] 1 (mkImageLoad example_png false))
    as (Hpending & [_ Herror] & Hcontext & Hload).
  - vm_compute. reflexivity.
  - reflexivity.
  - destruct (Hload 21%N 21%N true) as [[_ Hnone] Htext]; [reflexivity|].
    split; [exact Hpending|]. split; [exact Herror|]. split; [apply Hcontext|].
    split; [exact Hnone | apply Htext].
Defined.

(** C6, counterexample.  A PNG is selected and its image loads, with a 2D
    context available.  With 23170 x 23170 pixels, for which the browser
    cannot allocate the buffer, [getImageData] throws [RangeError] out of
    [image.onload]; with natural size 0 x 0 it throws [IndexSizeError].
    Either way the exception leaves the callback, no cell is set, and the
    display stays Pending: it is not LoadError. *)
Lemma onload_exception_escapes :
  let s := run [Change [example_png]] initial in
  let large := ImgLoad 1 23170 23170 true false None in
  let empty := ImgLoad 1 0 0 true true None in
  images s !! 1 = Some (mkImageLoad example_png false) /\
  (dispatch large s = Threw "RangeError" (setImages (delete 1 (images s)) s) /\
   outcome (step s large) = Some Pending) /\
  (dispatch empty s = Threw "IndexSizeError" (setImages (delete 1 (images s)) s) /\
   outcome (step s empty) = Some Pending /\
   outcome (step s empty) <> Some LoadError).
Proof. vm_compute. repeat split; try reflexivity. discriminate. Qed.

(** * Object URLs *)

Lemma callback_revokes s e url env :
  Inv s -> images s !! url = Some env -> callback_url e = Some url ->
  throws (dispatch e s) = false -> url ∉ liveUrls (step s e).
Proof.
  intros [HR HD] Henv Hurl Hret.
  rewrite (step_callback e url s (dis_committed s HD) Hurl).
  rewrite (dispatch_callback e url env s Hurl Henv) in Hret |- *.
  destruct (settlement e env) as [|exn|message|data]; try discriminate Hret;
    cbn; intros [_ Hin]%elem_of_difference; apply Hin; by apply elem_of_singleton.
Qed.

(** C7, the code at a failing input.  A valid PNG of 23170 x 23170 pixels
    is selected; its image loads and [getImageData] throws out of
    [image.onload] before the callback reaches [URL.revokeObjectURL].  The
    load is over, yet the decode's object URL is still live; it stays live
    through later events that leave the selection alone, and is revoked
    only by the effect's cleanup, here at the reset. *)
Lemma decode_url_live_after_throw :
  let s := run [Change [example_png]] initial in
  let s' := step s (ImgLoad 1 23170 23170 true false None) in
  decodeCleanup s = Some 1 /\
  throws (dispatch (ImgLoad 1 23170 23170 true false None) s) = true /\
  images s' !! 1 = None /\
  elements (liveUrls s') = elements (liveUrls s) /\
  bool_decide (1 ∈ liveUrls s') = true /\
  bool_decide (1 ∈ liveUrls (run [Paste None; ImgError 1] s')) = true /\
  bool_decide (1 ∈ liveUrls (step s' ResetClick)) = false.
Proof. vm_compute. repeat split. Qed.

(** X18. The decode effect's object URL is gone from the live URLs after
    every callback that returns: the error callback; the load callback
    when no 2D context is available; the load callback when [getImageData]
    returns the pixels, whether jsQR finds a code or not; either callback
    of a cancelled load.  It is gone after the cleanup that runs when the
    selection is replaced or cleared.  Between events, every live URL is
    held by a registered cleanup. *)
Theorem returning_exits_release_url (events : list Event) :
  let s := run events initial in
  (forall url env, images s !! url = Some env ->
     (url ∉ liveUrls (step s (ImgError url))) /\
     (forall w h allocated code,
        url ∉ liveUrls (step s (ImgLoad url w h false allocated code))) /\
     (forall w h allocated code, getImageData_throws w h allocated = None ->
        url ∉ liveUrls (step s (ImgLoad url w h true allocated code))) /\
     (cancelled env = true ->
      forall w h context allocated code,
        url ∉ liveUrls (step s (ImgLoad url w h context allocated code)))) /\
  (forall url e, decodeCleanup s = Some url -> changes_selection s e = true ->
     url ∉ liveUrls (step s e)) /\
  (forall url, url ∈ liveUrls s ->
     previewCleanup s = Some url \/ decodeCleanup s = Some url).
Proof.
  intros s. pose proof (reachable_Inv events) as Hinv. fold s in Hinv.
  split; [|split].
  - intros url env Henv. split; [|split; [|split]].
    + apply (callback_revokes s (ImgError url) url env Hinv Henv eq_refl).
      cbn [dispatch]. rewrite Henv. unfold image_onerror. by destruct (cancelled env).
    + intros w h allocated code.
      apply (callback_revokes s (ImgLoad url w h false allocated code) url env
               Hinv Henv eq_refl).
      cbn [dispatch]. rewrite Henv. unfold image_onload. by destruct (cancelled env).
    + intros w h allocated code Hpixels.
      apply (callback_revokes s (ImgLoad url w h true allocated code) url env
               Hinv Henv eq_refl).
      cbn [dispatch]. rewrite Henv. unfold image_onload.
      rewrite Hpixels. by destruct (cancelled env), code.
    + intros Hcancelled w h context allocated code.
      apply (callback_revokes s (ImgLoad url w h context allocated code) url env
               Hinv Henv eq_refl).
      cbn [dispatch]. rewrite Henv. unfold image_onload. by rewrite Hcancelled.
  - intros url e Hcur Hch. by destruct (cleanup_supersedes s e url Hinv Hcur Hch) as [H _].
  - apply (res_owned s (proj1 Hinv)).
Qed.

Lemma returning_exits_release_url_witness :
  let s := run [Change [example_png]] initial in
  (1 ∉ liveUrls (step s (ImgLoad 1 8 8 true true (Some "text")))) /\
  (1 ∉ liveUrls (step s (Change [example_jpeg]))).
Proof.
  destruct (returning_exits_release_url [Change [example_png]])
    as (Hcallback & Hcleanup & _).
  split.
  - destruct (Hcallback 1 (mkImageLoad example_png false)) as (_ & _ & Hload & _).
    + vm_compute. reflexivity.
    + by apply Hload.
  - apply Hcleanup.
    + reflexivity.
    + vm_compute. reflexivity.
Defined.

(** * Reset *)

(** C8. After the reset button's handler and its commit, in whatever state
    the component was (so also after a successful decode), nothing is
    selected, there is no preview URL, no decoded text, no decode error, no
    validation error, the decoding flag is off and the file input is empty:
    the screen shows none of the conditional parts. *)
Theorem reset_clears_everything (events : list Event) :
  let s := step (run events initial) ResetClick in
  selectedFile s = None /\ imageUrl s = None /\ decodeResult s = None /\
  decodeError s = None /\ errorMessage s = None /\ isDecoding s = false /\
  inputValue s = "" /\
  forall URL_new,
    render URL_new s = mkView None None false None None false false None.
Proof.
  pose proof (reachable_Inv events) as [HR HD].
  set (s0 := run events initial) in *. cbv zeta.
  pose proof (dis_committed s0 HD) as Hcom.
  assert (selectedFile (step s0 ResetClick) = None /\
          imageUrl (step s0 ResetClick) = None /\
          decodeResult (step s0 ResetClick) = None /\
          decodeError (step s0 ResetClick) = None /\
          errorMessage (step s0 ResetClick) = None /\
          isDecoding (step s0 ResetClick) = false /\
          inputValue (step s0 ResetClick) = "") as Hcells.
  { unfold step. cbn [dispatch state_of].
    destruct (selectedFile s0) as [file|] eqn:Hsel.
    - rewrite commit_clear; [done| |done]. cbn. by rewrite Hcom, Hsel.
    - rewrite commit_same by (cbn; by rewrite Hcom, Hsel).
      destruct (dis_idle s0 HD Hsel) as (Hu & _). cbn. by rewrite Hu. }
  destruct Hcells as (Hs & Hu & Hr & He & Hm & Hd & Hi).
  repeat (split; [assumption|]).
  intros URL_new. destruct (step s0 ResetClick). projs. by subst.
Qed.

Example reset_after_success :
  let decoded :=
    run [Paste (Some [mkItem "image/png" (Some example_png)]);
         ImgLoad 1 21 21 true true (Some "https://example.com/x")] initial in
  outcome decoded = Some (Success "https://example.com/x") /\
  hooks (step decoded ResetClick) = hooks initial.
Proof. vm_compute. split; reflexivity. Qed.

(** * One outcome at a time *)



(** * Validation failure at the two input boundaries *)

Lemma nonempty_length {A} (l : list A) : l <> [] -> Nat.eqb (List.length l) 0 = false.
Proof. by destruct l. Qed.

(** C10. A file that fails validation: chosen in the file input, the error
    is shown, the selection is cleared together with its preview and decode
    cells, and the input's value is reset; pasted, the error message is the
    only cell that changes. *)
Theorem validation_failure_by_boundary (events : list Event) (file : File)
    (validationError : string) :
  validateFile file = Some validationError ->
  let s := run events initial in
  (forall rest,
     let s' := step s (Change (file :: rest)) in
     errorMessage s' = Some validationError /\ selectedFile s' = None /\
     inputValue s' = "" /\ imageUrl s' = None /\ decodeResult s' = None /\
     decodeError s' = None /\ isDecoding s' = false) /\
  (forall items imageItem,
     items <> [] ->
     List.find (fun item => String.prefix "image/" (item_type item)) items = Some imageItem ->
     getAsFile imageItem = Some file ->
     step s (Paste (Some items)) = setErrorMessage (Some validationError) s).
Proof.
  intros Hinvalid s. pose proof (reachable_Inv events) as [HR HD]. fold s in HR, HD.
  pose proof (dis_committed s HD) as Hcom.
  split.
  - intros rest. cbv zeta. unfold step. cbn [dispatch state_of].
    unfold handleFileChange. cbn [head]. rewrite Hinvalid.
    destruct (selectedFile s) as [selected|] eqn:Hsel.
    + rewrite commit_clear; [done| |done]. cbn. by rewrite Hcom, Hsel.
    + rewrite commit_same by (cbn; by rewrite Hcom, Hsel).
      destruct (dis_idle s HD Hsel) as (Hu & Hr & He & Hd). cbn.
      by rewrite Hu, Hr, He, Hd.
  - intros items imageItem Hitems Hfind Hfile. unfold step. cbn [dispatch state_of].
    unfold handlePaste. rewrite (nonempty_length items Hitems), Hfind, Hfile, Hinvalid.
    by apply commit_same.
Qed.

Lemma validation_failure_by_boundary_witness :
  let s := run [Change [example_png]; ImgLoad 1 21 21 true true (Some "decoded")] initial in
  (selectedFile (step s (Change [example_gif])) = None /\
   decodeResult (step s (Change [example_gif])) = None /\
   inputValue (step s (Change [example_gif])) = "") /\
  step s (Paste (Some [mkItem "image/gif" (Some example_gif)])) =
    setErrorMessage (Some MSG_UNSUPPORTED_FORMAT) s.
Proof.
  destruct (validation_failure_by_boundary
              [Change [example_png]; ImgLoad 1 21 21 true true (Some "decoded")]
              example_gif MSG_UNSUPPORTED_FORMAT) as [Hinput Hpaste].
  - reflexivity.
  - split.
    + destruct (Hinput []) as (_ & Hs & Hi & _ & Hr & _). by repeat split.
    + apply (Hpaste _ (mkItem "image/gif" (Some example_gif))).
      * discriminate.
      * reflexivity.
      * reflexivity.
Defined.

(** * Paste failures *)

Lemma clipboard_messages_differ : MSG_CLIPBOARD_NO_ITEMS <> MSG_CLIPBOARD_READ_FAILED.
Proof. intros H. apply String.eqb_eq in H. vm_compute in H. discriminate. Qed.

(** C5, as the code has it.  A paste with no items, with items of which none
    is an image, or with an image item that yields no file sets a non-empty
    error message and changes nothing else, so no candidate becomes active.
    The first two cases show the same message; the third shows another. *)
Theorem paste_failures (events : list Event) :
  let s := run events initial in
  step s (Paste None) = setErrorMessage (Some MSG_CLIPBOARD_NO_ITEMS) s /\
  step s (Paste (Some [])) = setErrorMessage (Some MSG_CLIPBOARD_NO_ITEMS) s /\
  (forall items,
     items <> [] ->
     List.find (fun item => String.prefix "image/" (item_type item)) items = None ->
     step s (Paste (Some items)) = setErrorMessage (Some MSG_CLIPBOARD_NO_IMAGE_ITEM) s) /\
  (forall items imageItem,
     items <> [] ->
     List.find (fun item => String.prefix "image/" (item_type item)) items = Some imageItem ->
     getAsFile imageItem = None ->
     step s (Paste (Some items)) = setErrorMessage (Some MSG_CLIPBOARD_READ_FAILED) s) /\
  (forall message, selectedFile (setErrorMessage message s) = selectedFile s) /\
  (truthy (Some MSG_CLIPBOARD_NO_ITEMS) = true /\
   truthy (Some MSG_CLIPBOARD_NO_IMAGE_ITEM) = true /\
   truthy (Some MSG_CLIPBOARD_READ_FAILED) = true) /\
  MSG_CLIPBOARD_NO_ITEMS = MSG_CLIPBOARD_NO_IMAGE_ITEM /\
  MSG_CLIPBOARD_NO_ITEMS <> MSG_CLIPBOARD_READ_FAILED.
Proof.
  intros s. pose proof (reachable_Inv events) as [HR HD]. fold s in HR, HD.
  pose proof (dis_committed s HD) as Hcom.
  split; [by apply commit_same|]. split; [by apply commit_same|].
  split; [|split; [|split; [|split; [|split]]]].
  - intros items Hitems Hfind. unfold step. cbn [dispatch state_of].
    unfold handlePaste. rewrite (nonempty_length items Hitems), Hfind.
    by apply commit_same.
  - intros items imageItem Hitems Hfind Hfile. unfold step. cbn [dispatch state_of].
    unfold handlePaste. rewrite (nonempty_length items Hitems), Hfind, Hfile.
    by apply commit_same.
  - done.
  - done.
  - reflexivity.
  - apply clipboard_messages_differ.
Qed.

Lemma paste_failures_witness :
  let s := run [Change [example_png]] initial in
  step s (Paste (Some example_text_clipboard)) =
    setErrorMessage (Some MSG_CLIPBOARD_NO_IMAGE_ITEM) s /\
  step s (Paste (Some [mkItem "image/png" None])) =
    setErrorMessage (Some MSG_CLIPBOARD_READ_FAILED) s.
Proof.
  destruct (paste_failures [Change [example_png]]) as (_ & _ & Hnone & Hread & _).
  split.
  - apply Hnone; [discriminate | reflexivity].
  - apply (Hread _ (mkItem "image/png" None)); [discriminate | reflexivity | reflexivity].
Defined.

(** C5, counterexample.  An empty clipboard and a clipboard holding only
    text are two of the three failure cases, and they show the same
    message. *)
Lemma paste_messages_coincide :
  errorMessage (step initial (Paste (Some []))) = Some MSG_CLIPBOARD_NO_ITEMS /\
  errorMessage (step initial (Paste (Some example_text_clipboard))) =
    Some MSG_CLIPBOARD_NO_IMAGE_ITEM /\
  errorMessage (step initial (Paste (Some []))) =
    errorMessage (step initial (Paste (Some example_text_clipboard))).
Proof. repeat split. Qed.

(** * The size label *)

Lemma mb_hundredths_bounds (bytes : N) :
  (1048576 * mb_hundredths bytes <= 100 * bytes + 524288 /\
   100 * bytes < 1048576 * mb_hundredths bytes + 524288)%N.
Proof.
  unfold mb_hundredths.
  change (1024 * 1024)%N with 1048576%N. change (2 * 1048576)%N with 2097152%N.
  pose proof (N.div_mod' (2 * (100 * bytes) + 1048576) 2097152) as Hdiv.
  pose proof (N.mod_lt (2 * (100 * bytes) + 1048576) 2097152) as Hlt.
  assert (2097152 <> 0)%N as Hnz by discriminate. specialize (Hlt Hnz).
  set (q := ((2 * (100 * bytes) + 1048576) / 2097152)%N) in *.
  set (r := ((2 * (100 * bytes) + 1048576) mod 2097152)%N) in *.
  lia.
Qed.

Lemma mb_hundredths_mono (bytes1 bytes2 : N) :
  (bytes1 <= bytes2)%N -> (mb_hundredths bytes1 <= mb_hundredths bytes2)%N.
Proof.
  intros Hle. unfold mb_hundredths. apply N.Div0.div_le_mono. lia.
Qed.

(** X1. The size label is the size in MiB rounded to the nearest hundredth:
    the hundredths printed are within half a hundredth of
    [bytes / 1048576], a tie going up, and they grow with the size. *)
Theorem formatBytes_rounds (bytes : N) :
  formatBytes bytes = toFixed_2 (mb_hundredths bytes) +:+ " MB" /\
  (1048576 * mb_hundredths bytes <= 100 * bytes + 524288)%N /\
  (100 * bytes < 1048576 * mb_hundredths bytes + 524288)%N /\
  (forall larger, (bytes <= larger)%N -> (mb_hundredths bytes <= mb_hundredths larger)%N).
Proof.
  split; [reflexivity|]. split; [apply mb_hundredths_bounds|].
  split; [apply mb_hundredths_bounds|]. apply mb_hundredths_mono.
Qed.

Example formatBytes_one_mib : formatBytes 1048576 = "1.00 MB".
Proof. vm_compute. reflexivity. Qed.

Example formatBytes_limit : formatBytes MAX_FILE_SIZE_BYTES = "5.00 MB".
Proof. vm_compute. reflexivity. Qed.

(** 131072 bytes are 0.125 MiB exactly: the tie goes up. *)
Example formatBytes_tie_rounds_up :
  formatBytes 131072 = "0.13 MB" /\ formatBytes 131071 = "0.12 MB" /\
  formatBytes 15728640 = "15.00 MB".
Proof. vm_compute. repeat split. Qed.

(** X2. A file is labelled "0.00 MB" exactly as long as it is smaller than
    5243 bytes: the label of a small file does not tell it from an empty
    one. *)
Theorem formatBytes_small (bytes : N) :
  (mb_hundredths bytes = 0%N <-> (bytes <= 5242)%N) /\
  ((bytes <= 5242)%N -> formatBytes bytes = "0.00 MB").
Proof.
  assert (mb_hundredths bytes = 0%N <-> (bytes <= 5242)%N) as Hzero.
  { pose proof (mb_hundredths_bounds bytes) as [Hlow Hhigh]. split.
    - intros Hn. rewrite Hn in Hhigh. lia.
    - intros Hsmall. destruct (mb_hundredths bytes) eqn:Hn; [done | lia]. }
  split; [exact Hzero|].
  intros Hsmall. unfold formatBytes. apply Hzero in Hsmall. by rewrite Hsmall.
Qed.

Lemma formatBytes_small_witness :
  formatBytes 0 = "0.00 MB" /\ formatBytes 5242 = "0.00 MB".
Proof.
  split.
  - apply (formatBytes_small 0). lia.
  - apply (formatBytes_small 5242). lia.
Defined.

(** * The selection invariant *)

Lemma validateFile_None (file : File) :
  validateFile file = None ->
  ACCEPTED_MIME_TYPES_has (file_type file) = true /\
  (file_size file <= MAX_FILE_SIZE_BYTES)%N.
Proof.
  unfold validateFile.
  destruct (ACCEPTED_MIME_TYPES_has (file_type file)); cbn [negb]; [|discriminate].
  destruct (N.ltb_spec MAX_FILE_SIZE_BYTES (file_size file)); [discriminate|].
  by intros _.
Qed.

Lemma initial_Selection : Selection initial.
Proof. split; cbn; try done. Qed.

(** A handler that leaves the browser resources and the preview cell
    alone, and sets only files that passed validation. *)
Lemma handler_Selection s s1 :
  Resources s -> Selection s ->
  previewCleanup s1 = previewCleanup s -> decodeCleanup s1 = decodeCleanup s ->
  nextUrl s1 = nextUrl s -> liveUrls s1 = liveUrls s -> images s1 = images s ->
  imageUrl s1 = imageUrl s ->
  (depsChanged s1 = true /\
   forall file, selectedFile s1 = Some file -> validateFile file = None) \/
  (depsChanged s1 = false /\ selectedFile s1 = selectedFile s) ->
  Selection (commit s1).
Proof.
  intros HR [Hv Hpre Hn Hs Hl] Hp Hd Hnx Hlv Hi Hu Hcase.
  pose proof (Resources_ext s s1 Hp Hd Hnx Hlv Hi HR) as HR1.
  destruct Hcase as [[Hch Hvalid]|[Hsame Hsel]].
  - destruct (selectedFile s1) as [file|] eqn:Hsel.
    + rewrite (commit_select s1 file Hch Hsel). split; projs; try done.
      * intros f _. by eexists.
      * intros p [= <-]. split.
        -- apply elem_of_union. right. apply elem_of_union. left. by apply elem_of_singleton.
        -- rewrite lookup_insert_ne by lia.
           destruct (cancelled_at (decodeCleanup s1) (images s1) !! nextUrl s1)
             as [l|] eqn:Hlook; [|done].
           apply lookup_cancelled_at in Hlook as [(_ & _ & [l0 Hin])|[_ Hin]];
             pose proof (res_fresh_img s1 HR1 _ _ Hin); lia.
    + rewrite (commit_clear s1 Hch Hsel). split; projs; try done.
  - rewrite commit_same by done.
    split; rewrite ?Hsel, ?Hu, ?Hp, ?Hd, ?Hlv, ?Hi; assumption.
Qed.

(** A load callback takes its own URL, which the preview does not use. *)
Lemma callback_Selection s e url :
  Inv s -> Selection s -> callback_url e = Some url -> Selection (step s e).
Proof.
  intros [HR HD] [Hv Hpre Hn Hs Hl] Hurl.
  rewrite (step_callback e url s (dis_committed s HD) Hurl).
  destruct (images s !! url) as [env|] eqn:Henv.
  - rewrite (dispatch_callback e url env s Hurl Henv).
    assert (forall p, previewCleanup s = Some p -> p <> url) as Hother.
    { intros p Hp ->. destruct (Hl url Hp) as [_ Hnone]. congruence. }
    destruct (settlement e env) as [|exn|message|data]; cbn [settle state_of];
      (split; [exact Hv | exact Hpre | exact Hn | exact Hs |]);
      intros p Hp; cbn in Hp |- *; destruct (Hl p Hp) as [Hlive Hnone];
      (split; [|by rewrite lookup_delete_ne by (intros ->; by apply (Hother p))]);
      try done;
      apply elem_of_difference; (split; [done|]);
      intros ->%elem_of_singleton; by apply (Hother url).
  - rewrite (callback_not_in_flight e url s Hurl Henv). by split.
Qed.

Lemma step_Selection s e : Inv s -> Selection s -> Selection (step s e).
Proof.
  intros Hinv Hsel. pose proof Hinv as [HR HD].
  pose proof (dis_committed s HD) as Hcom.
  destruct (callback_url e) as [url|] eqn:Hurl; [by apply (callback_Selection s e url)|].
  unfold step. destruct e as [files|items| | |]; try discriminate Hurl;
    cbn [dispatch state_of].
  - set (s0 := setInputValue (fakepath files) s).
    destruct (handleFileChange_cases files s0)
      as [->|[[validationError ->]|[file [Hvalid ->]]]]; subst s0.
    + apply (handler_Selection s); try done. by right.
    + apply (handler_Selection s); try done.
      destruct (selectedFile s) as [f|] eqn:Hs.
      * left. split; [cbn; by rewrite Hcom, Hs | discriminate].
      * right. split; [cbn; by rewrite Hcom, Hs | done].
    + apply (handler_Selection s); try done. left.
      split; [apply depsChanged_select | by intros f [= <-]].
  - destruct (handlePaste_cases items s) as [[message ->]|[file [Hvalid ->]]].
    + apply (handler_Selection s); try done. by right.
    + apply (handler_Selection s); try done. left.
      split; [apply depsChanged_select | by intros f [= <-]].
  - apply (handler_Selection s); try done.
    destruct (selectedFile s) as [f|] eqn:Hs.
    + left. split; [cbn; by rewrite Hcom, Hs | discriminate].
    + right. split; [cbn; by rewrite Hcom, Hs | done].
Qed.

Lemma run_Selection events s : Inv s -> Selection s -> Selection (run events s).
Proof.
  revert s. induction events as [|e events IH]; intros s Hinv Hsel; [done|].
  cbn. apply IH; [by apply step_Inv | by apply step_Selection].
Qed.

Lemma reachable_Selection events : Selection (run events initial).
Proof. apply run_Selection; [apply initial_Inv | apply initial_Selection]. Qed.

Lemma selected_valid_parts (events : list Event) (file : File) :
  selectedFile (run events initial) = Some file ->
  (file_type file = "image/png" \/ file_type file = "image/jpeg" \/
   file_type file = "image/webp") /\
  (file_size file <= 5242880)%N.
Proof.
  intros Hsel.
  pose proof (sel_valid _ (reachable_Selection events) file Hsel) as Hvalid.
  destruct (validateFile_None file Hvalid) as [Htype Hsize].
  split; [by apply ACCEPTED_MIME_TYPES_has_spec | exact Hsize].
Qed.

(** X3. Whatever the sequence of events, a selected file is one that passed
    validation: its declared type is one of the three accepted ones and it
    is no larger than 5 MiB. *)
Theorem selected_file_valid (events : list Event) (file : File) :
  selectedFile (run events initial) = Some file ->
  validateFile file = None /\
  (file_type file = "image/png" \/ file_type file = "image/jpeg" \/
   file_type file = "image/webp") /\
  (file_size file <= 5242880)%N.
Proof.
  intros Hsel.
  pose proof (sel_valid _ (reachable_Selection events) file Hsel) as Hvalid.
  destruct (validateFile_None file Hvalid) as [Htype Hsize].
  split; [done|]. split; [by apply ACCEPTED_MIME_TYPES_has_spec | exact Hsize].
Qed.

Lemma selected_file_valid_witness :
  validateFile example_jpeg = None /\
  (file_type example_jpeg = "image/png" \/ file_type example_jpeg = "image/jpeg" \/
   file_type example_jpeg = "image/webp") /\
  (file_size example_jpeg <= 5242880)%N.
Proof.
  apply (selected_file_valid
           [Change [example_gif]; Paste (Some [mkItem "image/jpeg" (Some example_jpeg)])]).
  vm_compute. reflexivity.
Defined.

(** X4. The file card appears exactly when a file is selected, and then it
    shows a non-empty name (the file's, or "clipboard-image" for a file
    without one), one of the three accepted types, and a size label from
    "0.00 MB" to "5.00 MB". *)
Theorem fileMeta_shown (events : list Event) :
  let s := run events initial in
  match fileMeta s with
  | None => selectedFile s = None
  | Some meta =>
      (exists file, selectedFile s = Some file /\ meta_type meta = file_type file /\
         meta_size meta = formatBytes (file_size file) /\
         (file_name file <> "" -> meta_name meta = file_name file) /\
         (file_name file = "" -> meta_name meta = "clipboard-image")) /\
      meta_name meta <> "" /\
      (meta_type meta = "image/png" \/ meta_type meta = "image/jpeg" \/
       meta_type meta = "image/webp") /\
      (exists n, (n <= 500)%N /\ meta_size meta = toFixed_2 n +:+ " MB")
  end.
Proof.
  intros s. unfold fileMeta.
  destruct (selectedFile s) as [file|] eqn:Hsel; [|done].
  destruct (selected_valid_parts events file Hsel) as [Htype Hsize].
  cbn [meta_name meta_size meta_type].
  split; [|split; [|split]].
  - exists file. repeat (split; [done|]). split; by destruct (file_name file).
  - by destruct (file_name file).
  - exact Htype.
  - exists (mb_hundredths (file_size file)). split; [|done].
    change 500%N with (mb_hundredths 5242880). by apply mb_hundredths_mono.
Qed.

Example fileMeta_pasted_without_name :
  fileMeta (run [Paste (Some [mkItem "image/png" (Some (mkFile "" "image/png" 131072))])]
              initial) =
  Some (mkFileMeta "clipboard-image" "0.13 MB" "image/png").
Proof. vm_compute. reflexivity. Qed.

(** * Object URLs of the preview and of the decode *)

(** Between the effects and the render of their updates: the effects'
    part of the state is the settled one, the cells the effects set are
    still the handler's. *)
Lemma runEffects_lag s :
  let lag := fst (runEffects s) in
  (selectedFile lag = selectedFile (commit s) /\ errorMessage lag = errorMessage (commit s) /\
   inputValue lag = inputValue (commit s) /\ depsChanged lag = depsChanged (commit s) /\
   previewCleanup lag = previewCleanup (commit s) /\
   decodeCleanup lag = decodeCleanup (commit s) /\ nextUrl lag = nextUrl (commit s) /\
   liveUrls lag = liveUrls (commit s) /\ images lag = images (commit s)) /\
  imageUrl lag = imageUrl s /\ decodeResult lag = decodeResult s /\
  decodeError lag = decodeError s /\ isDecoding lag = isDecoding s.
Proof.
  destruct s as [sel iu em dr de dec iv dc pc dcl nu lu im].
  destruct dc, sel, pc, dcl;
    cbv [commit runEffects flush fold_left app fst snd previewEffect decodeEffect
         runDecodeCleanup runPreviewCleanup createObjectURL revokeObjectURL
         setSelectedFile setImageUrl setErrorMessage setDecodeResult setDecodeError
         setIsDecoding setInputValue setDepsChanged setPreviewCleanup setDecodeCleanup
         setImages selectedFile imageUrl errorMessage decodeResult decodeError
         isDecoding inputValue depsChanged previewCleanup decodeCleanup nextUrl
         liveUrls images];
    repeat split; reflexivity.
Qed.

Lemma lagging_Resources s e : Inv s -> Resources (lagging s e).
Proof.
  intros Hinv. destruct (step_Inv s e Hinv) as [HR _].
  destruct (runEffects_lag (state_of (dispatch e s)))
    as [(_ & _ & _ & _ & Hp & Hd & Hn & Hl & Hi) _].
  by apply (Resources_ext (step s e)).
Qed.

(** X5. The object URL made by the latest run of the preview effect is
    live, in the settled state after any events as well as between an
    event's effects and the render of their updates: a file is selected,
    the decode effect's URL is the next one, no image load has the
    preview's URL.  In the settled state the preview cell holds that URL
    and no load callback revokes it.  The cell itself lags: until the
    render after the effects it keeps its previous value, which, when the
    event replaced or cleared the selection, is a URL the cleanup has
    already revoked. *)
Theorem preview_url_live (events : list Event) (e : Event) (s' : State)
    (url : ObjectURL) :
  let s := run events initial in
  (imageUrl (lagging s e) = imageUrl s /\
   forall old, changes_selection s e = true -> imageUrl s = Some old ->
     old ∉ liveUrls (lagging s e)) /\
  (s' = s \/ s' = lagging s e ->
   previewCleanup s' = Some url ->
   url ∈ liveUrls s' /\ selectedFile s' <> None /\
   decodeCleanup s' = Some (S url) /\ images s' !! url = None /\
   (s' = s ->
    imageUrl s' = Some url /\
    forall c, is_callback c = true -> url ∈ liveUrls (step s c))).
Proof.
  intros s.
  pose proof (reachable_Selection events) as Hsel. fold s in Hsel.
  pose proof (reachable_Inv events) as Hinv. fold s in Hinv.
  pose proof (dis_committed s (proj2 Hinv)) as Hcom.
  destruct (runEffects_lag (state_of (dispatch e s)))
    as [(Hls & _ & _ & _ & Hlp & Hld & _ & Hll & Hli) (Hlu & _)].
  fold (lagging s e) in Hls, Hlp, Hld, Hll, Hli, Hlu. fold (step s e) in Hls, Hlp, Hld, Hll, Hli.
  assert (forall t, Selection t -> previewCleanup t = Some url ->
            url ∈ liveUrls t /\ selectedFile t <> None /\
            decodeCleanup t = Some (S url) /\ images t !! url = None) as Hsettled.
  { intros t Ht Hp. destruct (sel_live t Ht url Hp) as [Hlive Hnone].
    assert (selectedFile t <> None) as Hsome.
    { intros Hn. destruct (sel_none t Ht Hn) as [Hp' _]. congruence. }
    split; [done|]. split; [done|]. split; [|done].
    destruct (selectedFile t) as [file|] eqn:Hfile; [|done].
    destruct (sel_some t Ht file Hfile) as (p & Hp' & Hd). congruence. }
  split; [split|].
  - rewrite Hlu. destruct (callback_url e) as [u|] eqn:Hurl.
    + destruct (images s !! u) as [env|] eqn:Henv.
      * rewrite (dispatch_callback e u env s Hurl Henv). by destruct (settlement e env).
      * by rewrite (callback_not_in_flight e u s Hurl Henv).
    + destruct e as [files|items| | |]; try discriminate Hurl; cbn [dispatch state_of].
      * destruct (handleFileChange_cases files (setInputValue (fakepath files) s))
          as [->|[[validationError ->]|[file [_ ->]]]]; done.
      * destruct (handlePaste_cases items s) as [[message ->]|[file [_ ->]]]; done.
      * done.
  - intros old Hch Hold. rewrite Hll.
    pose proof (sel_preview s Hsel) as Hpre. rewrite Hold in Hpre. symmetry in Hpre.
    pose proof (res_fresh_preview s (proj1 Hinv) old Hpre) as Hfresh.
    destruct (changes_selection_commit s e Hcom Hch)
      as (s1 & Hstep & Hdeps & Hp & Hd & Hn & Hl & Hi).
    rewrite Hstep. destruct (selectedFile s1) as [file|] eqn:Hsel1.
    + rewrite (commit_select s1 file Hdeps Hsel1). projs. rewrite Hp, Hn, Hpre.
      intros [Hin|[Hin|Hin]%elem_of_union]%elem_of_union.
      * apply elem_of_singleton in Hin. lia.
      * apply elem_of_singleton in Hin. lia.
      * apply elem_of_revoked in Hin as [[_ Hne]%elem_of_revoked _]. by apply Hne.
    + rewrite (commit_clear s1 Hdeps Hsel1). projs. rewrite Hp, Hpre.
      intros [[_ Hne]%elem_of_revoked _]%elem_of_revoked. by apply Hne.
  - intros [-> | ->] Hp.
    + destruct (Hsettled s Hsel Hp) as (H1 & H2 & H3 & H4).
      repeat (split; [done|]). intros _. split; [by rewrite (sel_preview s Hsel)|].
      intros c Hc. destruct (is_callback_url c Hc) as [u Hu].
      pose proof (callback_Selection s c u Hinv Hsel Hu) as Hsel'.
      apply (sel_live _ Hsel' url).
      rewrite (step_callback c u s Hcom Hu).
      destruct (images s !! u) as [env|] eqn:Henv.
      * rewrite (dispatch_callback c u env s Hu Henv). by destruct (settlement c env).
      * by rewrite (callback_not_in_flight c u s Hu Henv).
    + rewrite Hlp in Hp.
      destruct (Hsettled (step s e) (step_Selection s e Hinv Hsel) Hp) as (H1 & H2 & H3 & H4).
      rewrite Hll, Hls, Hld, Hli. repeat (split; [done|]).
      intros Heq. split.
      * rewrite Heq. rewrite <- Heq in Hp at 1. rewrite Heq in Hlp.
        rewrite (sel_preview s Hsel). congruence.
      * intros c Hc. destruct (is_callback_url c Hc) as [u Hu].
        assert (previewCleanup s = Some url) as Hps by congruence.
        pose proof (callback_Selection s c u Hinv Hsel Hu) as Hsel'.
        apply (sel_live _ Hsel' url).
        rewrite (step_callback c u s Hcom Hu).
        destruct (images s !! u) as [env|] eqn:Henv.
        -- rewrite (dispatch_callback c u env s Hu Henv). by destruct (settlement c env).
        -- by rewrite (callback_not_in_flight c u s Hu Henv).
Qed.

Lemma preview_url_live_witness :
  let s := run [Change [example_png]] initial in
  let lag := lagging s (Change [example_jpeg]) in
  (imageUrl lag = Some 0 /\ 0 ∉ liveUrls lag) /\
  (2 ∈ liveUrls lag /\ selectedFile lag <> None /\
   decodeCleanup lag = Some 3 /\ images lag !! 2 = None).
Proof.
  destruct (preview_url_live [Change [example_png]] (Change [example_jpeg])
              (lagging (run [Change [example_png]] initial) (Change [example_jpeg])) 2)
    as [[Hcell Hold] Hlive].
  split.
  - split; [rewrite Hcell; vm_compute; reflexivity|]. apply Hold; vm_compute; reflexivity.
  - destruct Hlive as (H1 & H2 & H3 & H4 & _).
    + right. reflexivity.
    + vm_compute. reflexivity.
    + split; [exact H1|]. split; [exact H2|]. split; [exact H3 | exact H4].
Defined.

Lemma owned_size (live : gset nat) (p d : option ObjectURL) :
  (forall u, u ∈ live -> p = Some u \/ d = Some u) -> size live <= 2.
Proof.
  intros Howned.
  set (P := match p with Some u => ({[u]} : gset nat) | None => ∅ end).
  set (D := match d with Some u => ({[u]} : gset nat) | None => ∅ end).
  assert (live ⊆ P ∪ D) as Hsub.
  { intros u Hu. apply elem_of_union.
    destruct (Howned u Hu) as [Hp|Hd]; [left; subst P; rewrite Hp
                                       |right; subst D; rewrite Hd];
      by apply elem_of_singleton. }
  apply subseteq_size in Hsub. rewrite size_union_alt in Hsub.
  assert (size P <= 1) as HP.
  { subst P. destruct p; [by rewrite size_singleton | rewrite size_empty; lia]. }
  assert (size (D ∖ P) <= 1) as HD.
  { etrans; [apply subseteq_size, subseteq_difference_l; reflexivity|].
    subst D. destruct d; [by rewrite size_singleton | rewrite size_empty; lia]. }
  lia.
Qed.

(** X6. Object URLs do not pile up: at most two are live in any reachable
    state, and while nothing is selected (at the start, after a reset,
    after a rejected choice in the file input) none is live and no image
    load is left uncancelled. *)
Theorem object_urls_bounded (events : list Event) :
  let s := run events initial in
  size (liveUrls s) <= 2 /\
  (selectedFile s = None ->
   liveUrls s = ∅ /\
   forall url load, images s !! url = Some load -> cancelled load = true).
Proof.
  intros s.
  pose proof (reachable_Selection events) as Hsel. fold s in Hsel.
  pose proof (reachable_Inv events) as [HR HD]. fold s in HR, HD.
  split.
  - apply (owned_size _ (previewCleanup s) (decodeCleanup s)), (res_owned s HR).
  - intros Hnone. destruct (sel_none s Hsel Hnone) as [Hp Hd]. split.
    + apply set_eq. intros u. split; [|by intros ?%not_elem_of_empty].
      intros Hu. destruct (res_owned s HR u Hu); congruence.
    + intros url load Hload. destruct (cancelled load) eqn:Hc; [done|].
      pose proof (res_current s HR url load Hload Hc). congruence.
Qed.

Lemma object_urls_bounded_witness :
  let s := run [Change [example_png]; ImgError 1; ResetClick] initial in
  liveUrls s = ∅ /\
  forall url load, images s !! url = Some load -> cancelled load = true.
Proof.
  apply (object_urls_bounded [Change [example_png]; ImgError 1; ResetClick]).
  vm_compute. reflexivity.
Defined.

Lemma revoked_owned_empty (live : gset nat) (p d : option ObjectURL) :
  (forall u, u ∈ live -> p = Some u \/ d = Some u) ->
  revoked d (revoked p live) = ∅.
Proof.
  intros Howned. apply set_eq. intros u. split; [|by intros ?%not_elem_of_empty].
  intros [[Hu Hp]%elem_of_revoked Hd]%elem_of_revoked.
  destruct (Howned u Hu); congruence.
Qed.

Lemma dom_cancelled_at o (m : gmap nat ImageLoad) : dom (cancelled_at o m) = dom m.
Proof. destruct o as [u|]; [apply dom_alter_L | done]. Qed.

(** X7. An event that selects a file makes exactly two object URLs, the
    preview's and, right after it, the decode's; when its commit is over
    these two are the live URLs, every older one being revoked, and the
    load of the selected file is in flight under the decode's URL. *)
Theorem selection_allocates_two (events : list Event) (e : Event) (file : File) :
  let s := run events initial in
  changes_selection s e = true -> selectedFile (step s e) = Some file ->
  imageUrl (step s e) = Some (nextUrl s) /\
  decodeCleanup (step s e) = Some (S (nextUrl s)) /\
  nextUrl (step s e) = S (S (nextUrl s)) /\
  liveUrls (step s e) = {[nextUrl s; S (nextUrl s)]} /\
  images (step s e) !! S (nextUrl s) = Some (mkImageLoad file false).
Proof.
  intros s Hch Hfile.
  pose proof (reachable_Inv events) as [HR HD]. fold s in HR, HD.
  destruct (changes_selection_commit s e (dis_committed s HD) Hch)
    as (s1 & Hstep & Hdeps & Hp & Hd & Hn & Hl & Hi).
  rewrite Hstep in Hfile |- *.
  destruct (selectedFile s1) as [file1|] eqn:Hsel1.
  - rewrite (commit_select s1 file1 Hdeps Hsel1) in Hfile |- *. projs.
    injection Hfile as ->. rewrite Hn, Hp, Hd, Hl.
    rewrite (revoked_owned_empty _ _ _ (res_owned s HR)).
    repeat (split; [done|]). split.
    + apply set_eq. intros u.
      rewrite !elem_of_union, !elem_of_singleton, elem_of_empty. tauto.
    + apply lookup_insert_eq.
  - by rewrite (commit_clear s1 Hdeps Hsel1) in Hfile.
Qed.

Lemma selection_allocates_two_witness :
  let s := run [Change [example_png]] initial in
  let e := Paste (Some [mkItem "image/jpeg" (Some example_jpeg)]) in
  imageUrl (step s e) = Some 2 /\
  decodeCleanup (step s e) = Some 3 /\
  nextUrl (step s e) = 4 /\
  liveUrls (step s e) = {[2; 3]} /\
  images (step s e) !! 3 = Some (mkImageLoad example_jpeg false).
Proof.
  apply (selection_allocates_two [Change [example_png]]
           (Paste (Some [mkItem "image/jpeg" (Some example_jpeg)])) example_jpeg).
  - vm_compute. reflexivity.
  - vm_compute. reflexivity.
Defined.

(** X8. Object URLs are made and image loads started for validated files
    only: an event either makes no URL and starts no load, or it selects a
    file that passed validation and makes two URLs. *)
Theorem loads_only_for_valid_files (events : list Event) (e : Event) :
  let s := run events initial in
  (nextUrl (step s e) = nextUrl s /\ dom (images (step s e)) ⊆ dom (images s)) \/
  (nextUrl (step s e) = S (S (nextUrl s)) /\
   exists file, selectedFile (step s e) = Some file /\ validateFile file = None /\
     dom (images (step s e)) = {[S (nextUrl s)]} ∪ dom (images s)).
Proof.
  intros s.
  pose proof (reachable_Inv events) as Hinv. fold s in Hinv.
  pose proof (reachable_Selection events) as Hsel. fold s in Hsel.
  pose proof (step_Selection s e Hinv Hsel) as Hsel'.
  pose proof (dis_committed s (proj2 Hinv)) as Hcom.
  destruct (callback_url e) as [url|] eqn:Hurl.
  - left. rewrite (step_callback e url s Hcom Hurl).
    destruct (images s !! url) as [env|] eqn:Henv.
    + rewrite (dispatch_callback e url env s Hurl Henv).
      destruct (settlement e env); cbn; (split; [done|]);
        rewrite dom_delete_L; apply subseteq_difference_l; done.
    + by rewrite (callback_not_in_flight e url s Hurl Henv).
  - destruct (changes_selection s e) eqn:Hch.
    + destruct (changes_selection_commit s e Hcom Hch)
        as (s1 & Hstep & Hdeps & Hp & Hd & Hn & Hl & Hi).
      destruct (selectedFile s1) as [file|] eqn:Hsel1.
      * right. pose proof (sel_valid _ Hsel' file) as Hvalid.
        rewrite Hstep in Hvalid |- *.
        rewrite (commit_select s1 file Hdeps Hsel1) in Hvalid |- *. projs.
        rewrite Hn, Hd, Hi. split; [done|]. exists file.
        split; [done|]. split; [by apply Hvalid|].
        by rewrite dom_insert_L, dom_cancelled_at.
      * left. rewrite Hstep, (commit_clear s1 Hdeps Hsel1). projs.
        rewrite Hn, Hd, Hi. split; [done|]. by rewrite dom_cancelled_at.
    + left. unfold step. unfold changes_selection in Hch. rewrite commit_same by done.
      destruct (dispatch_user_resources e s Hurl) as (_ & _ & Hn & _ & Hi).
      cbv zeta in Hn, Hi. by rewrite Hn, Hi.
Qed.

Example rejected_paste_starts_nothing :
  let s := run [Change [example_png]] initial in
  let e := Paste (Some [mkItem "image/svg+xml" (Some (mkFile "v.svg" "image/svg+xml" 900))]) in
  nextUrl (step s e) = nextUrl s /\ images (step s e) = images s /\
  errorMessage (step s e) = Some MSG_UNSUPPORTED_FORMAT.
Proof. vm_compute. repeat split. Qed.

(** * The decode box *)

(** X9. While a file is selected the "Decode Result" box shows exactly one
    of its four alternatives (the pending line, the error, the decoded
    text, the placeholder); without a selection it shows none. *)
Theorem one_panel_shown (events : list Event) (URL_new : string -> option URL) :
  let v := render URL_new (run events initial) in
  count_shown (panels v) = match view_file v with Some _ => 1 | None => 0 end.
Proof.
  pose proof (reachable_Inv events) as [_ HD].
  destruct HD as [_ _ Hpending Hone _].
  destruct (run events initial) as [sel iu em dr de dec iv dc pc dcl nu lu im]; projs.
  cbv zeta. unfold render, panels, count_shown; projs.
  cbn [view_pending view_decodeError view_decodeResult view_placeholder view_file].
  destruct sel as [file|]; [|reflexivity].
  destruct dec.
  - destruct (Hpending eq_refl) as [-> ->]. reflexivity.
  - destruct Hone as [-> | ->].
    + by destruct de as [[|c message]|].
    + by destruct dr as [[|c text]|].
Qed.

(** X10. A QR code whose text is empty: when [getImageData] returns the
    pixels and jsQR finds the code, the decode succeeds with the empty
    text, yet the box shows the placeholder line of a card that has decoded
    nothing, and neither text nor link. *)
Theorem empty_text_shows_placeholder (events : list Event) (url : ObjectURL)
    (env : ImageLoad) (w h : N) (allocated : bool) (URL_new : string -> option URL) :
  let s := run events initial in
  images s !! url = Some env -> cancelled env = false ->
  getImageData_throws w h allocated = None ->
  let s' := step s (ImgLoad url w h true allocated (Some "")) in
  decodeResult s' = Some "" /\ outcome s' = Some (Success "") /\
  view_placeholder (render URL_new s') = true /\
  view_decodeResult (render URL_new s') = None /\
  view_link (render URL_new s') = false.
Proof.
  intros s Henv Hlive Hpixels.
  pose proof (reachable_Inv events) as Hinv. fold s in Hinv.
  destruct (dis_inflight s (proj2 Hinv) url env Henv Hlive) as [Hsel _].
  destruct (settle_current s (ImgLoad url w h true allocated (Some "")) url env
              Hinv Henv Hlive eq_refl) as [_ Hsettle].
  unfold settlement in Hsettle.
  rewrite Hlive, Hpixels in Hsettle. cbn [negb] in Hsettle.
  destruct Hsettle as (_ & Hd & Hr & He).
  assert (selectedFile (step s (ImgLoad url w h true allocated (Some ""))) = selectedFile s)
    as Hkeep.
  { rewrite (step_callback (ImgLoad url w h true allocated (Some "")) url s
               (dis_committed s (proj2 Hinv)) eq_refl).
    rewrite (dispatch_callback (ImgLoad url w h true allocated (Some "")) url env s
               eq_refl Henv).
    by destruct (settlement (ImgLoad url w h true allocated (Some "")) env). }
  cbv zeta. split; [done|]. split; [by apply outcome_decoded|].
  unfold render. cbn [view_placeholder view_decodeResult view_link].
  by rewrite Hkeep, Hsel, Hd, Hr, He.
Qed.

Lemma empty_text_shows_placeholder_witness :
  let s' := step (run [Change [example_png]] initial) (ImgLoad 1 21 21 true true (Some "")) in
  decodeResult s' = Some "" /\ outcome s' = Some (Success "") /\
  view_placeholder (render Whatwg.scheme_only_parser s') = true /\
  view_decodeResult (render Whatwg.scheme_only_parser s') = None /\
  view_link (render Whatwg.scheme_only_parser s') = false.
Proof.
  apply (empty_text_shows_placeholder [Change [example_png]] 1
           (mkImageLoad example_png false) 21 21 true Whatwg.scheme_only_parser).
  - vm_compute. reflexivity.
  - reflexivity.
  - reflexivity.
Defined.

(** * What load callbacks leave alone *)

(** X11. A load callback, of the current load or of a stale one, whatever it
    reports, never changes the selection, the preview URL, the validation
    error or the file input, makes no object URL and starts no load. *)
Theorem callback_frame (events : list Event) (e : Event) :
  let s := run events initial in
  is_callback e = true ->
  selectedFile (step s e) = selectedFile s /\ imageUrl (step s e) = imageUrl s /\
  errorMessage (step s e) = errorMessage s /\ inputValue (step s e) = inputValue s /\
  fileMeta (step s e) = fileMeta s /\
  nextUrl (step s e) = nextUrl s /\ dom (images (step s e)) ⊆ dom (images s).
Proof.
  intros s He. destruct (is_callback_url e He) as [url Hurl].
  pose proof (reachable_Inv events) as [_ HD]. fold s in HD.
  rewrite (step_callback e url s (dis_committed s HD) Hurl). unfold fileMeta.
  destruct (images s !! url) as [env|] eqn:Henv.
  - rewrite (dispatch_callback e url env s Hurl Henv).
    destruct (settlement e env); cbn; repeat (split; [done|]);
      rewrite dom_delete_L; apply subseteq_difference_l; done.
  - by rewrite (callback_not_in_flight e url s Hurl Henv).
Qed.

Lemma callback_frame_witness :
  let s := run [Paste (Some [mkItem "text/plain" None]); Change [example_png]] initial in
  let e := ImgLoad 1 21 21 true true (Some "text") in
  selectedFile (step s e) = selectedFile s /\ imageUrl (step s e) = imageUrl s /\
  errorMessage (step s e) = errorMessage s /\ inputValue (step s e) = inputValue s /\
  fileMeta (step s e) = fileMeta s /\
  nextUrl (step s e) = nextUrl s /\ dom (images (step s e)) ⊆ dom (images s).
Proof.
  apply (callback_frame [Paste (Some [mkItem "text/plain" None]); Change [example_png]]
           (ImgLoad 1 21 21 true true (Some "text"))).
  reflexivity.
Defined.

(** X12. One decode at a time: in the settled state after any events, and
    between an event's effects and the render of their updates, at most one
    image load is uncancelled; it is the load of the selected file, made by
    the latest run of the decode effect.  In the settled state the decode
    cells show pending. *)
Theorem single_live_decode (events : list Event) (e : Event) (s' : State)
    (url1 url2 : ObjectURL) (load1 load2 : ImageLoad) :
  let s := run events initial in
  s' = s \/ s' = lagging s e ->
  images s' !! url1 = Some load1 -> cancelled load1 = false ->
  images s' !! url2 = Some load2 -> cancelled load2 = false ->
  url1 = url2 /\ load1 = load2 /\
  selectedFile s' = Some (load_file load1) /\ decodeCleanup s' = Some url1 /\
  (s' = s -> outcome s' = Some Pending).
Proof.
  intros s Hs'.
  pose proof (reachable_Inv events) as Hinv. fold s in Hinv.
  assert (forall t, Inv t ->
            images t !! url1 = Some load1 -> cancelled load1 = false ->
            images t !! url2 = Some load2 -> cancelled load2 = false ->
            url1 = url2 /\ load1 = load2 /\
            selectedFile t = Some (load_file load1) /\ decodeCleanup t = Some url1 /\
            outcome t = Some Pending) as Hsettled.
  { intros t [HR HD] H1 Hc1 H2 Hc2.
    pose proof (res_current t HR url1 load1 H1 Hc1) as Hcur1.
    pose proof (res_current t HR url2 load2 H2 Hc2) as Hcur2.
    assert (url1 = url2) as <- by congruence.
    destruct (dis_inflight t HD url1 load1 H1 Hc1) as [Hsel Hdec].
    destruct (dis_pending t HD Hdec) as [Hr He].
    split; [done|]. split; [congruence|]. split; [done|]. split; [done|].
    by apply outcome_pending. }
  destruct Hs' as [-> | ->]; intros H1 Hc1 H2 Hc2.
  - destruct (Hsettled s Hinv H1 Hc1 H2 Hc2) as (? & ? & ? & ? & ?). by repeat split.
  - destruct (runEffects_lag (state_of (dispatch e s)))
      as [(Hls & _ & _ & _ & _ & Hld & _ & _ & Hli) _].
    fold (lagging s e) in Hls, Hld, Hli. fold (step s e) in Hls, Hld, Hli.
    rewrite Hli in H1, H2.
    destruct (Hsettled (step s e) (step_Inv s e Hinv) H1 Hc1 H2 Hc2)
      as (Hu & Hl & Hsel & Hcur & Hout).
    rewrite Hls, Hld. repeat (split; [done|]).
    intros Heq.
    assert (images (step s e) = images s) as Hi' by (rewrite <- Hli; by rewrite Heq).
    rewrite Hi' in H1, H2. rewrite Heq. by apply (Hsettled s Hinv).
Qed.

Lemma single_live_decode_witness :
  let s := run [Change [example_png]; ImgLoad 1 21 21 true true (Some "from A")] initial in
  let lag := lagging s (Change [example_jpeg]) in
  outcome lag = Some (Success "from A") /\
  selectedFile lag = Some (load_file (mkImageLoad example_jpeg false)) /\
  decodeCleanup lag = Some 3.
Proof.
  split; [vm_compute; reflexivity|].
  destruct (single_live_decode
              [Change [example_png]; ImgLoad 1 21 21 true true (Some "from A")]
              (Change [example_jpeg])
              (lagging (run [Change [example_png];
                             ImgLoad 1 21 21 true true (Some "from A")] initial)
                       (Change [example_jpeg]))
              3 3 (mkImageLoad example_jpeg false) (mkImageLoad example_jpeg false))
    as (_ & _ & Hsel & Hcur & _).
  - right. reflexivity.
  - vm_compute. reflexivity.
  - reflexivity.
  - vm_compute. reflexivity.
  - reflexivity.
  - split; [exact Hsel | exact Hcur].
Defined.

(** * Paste *)

Lemma find_skip {A} (f : A -> bool) (before : list A) (x : A) (after : list A) :
  Forall (fun y => f y = false) before -> f x = true ->
  List.find f (before ++ x :: after)%list = Some x.
Proof.
  intros Hbefore Hx. induction Hbefore as [|y before Hy _ IH]; cbn.
  - by rewrite Hx.
  - by rewrite Hy.
Qed.

(** X13. A paste takes the first clipboard item whose type starts with
    "image/", whatever comes before or after it.  When that item yields a
    file that passes validation, the file becomes the selection, the
    validation error is cleared and a decode starts; the file input keeps
    the value it had. *)
Theorem paste_takes_first_image (events : list Event)
    (before after : list DataTransferItem) (imageItem : DataTransferItem) (file : File) :
  let s := run events initial in
  let is_image := fun item => String.prefix "image/" (item_type item) in
  Forall (fun item => is_image item = false) before ->
  is_image imageItem = true ->
  getAsFile imageItem = Some file -> validateFile file = None ->
  let s' := step s (Paste (Some (before ++ imageItem :: after)%list)) in
  s' = step s (Paste (Some [imageItem])) /\
  selectedFile s' = Some file /\ errorMessage s' = None /\
  outcome s' = Some Pending /\ inputValue s' = inputValue s /\
  images s' !! S (nextUrl s) = Some (mkImageLoad file false).
Proof.
  intros s is_image Hbefore Himage Hfile Hvalid.
  assert (forall items,
            items <> [] -> List.find is_image items = Some imageItem ->
            step s (Paste (Some items)) =
              commit (setSelectedFile (Some file) (setErrorMessage None s))) as Hstep.
  { intros items Hitems Hfind. unfold step. cbn [dispatch state_of]. unfold handlePaste.
    fold is_image. by rewrite (nonempty_length items Hitems), Hfind, Hfile, Hvalid. }
  cbv zeta.
  rewrite (Hstep (before ++ imageItem :: after)%list);
    [|by destruct before | by apply find_skip].
  rewrite (Hstep [imageItem]); [|done | cbn; by rewrite Himage].
  rewrite (commit_select _ file (depsChanged_select file _) eq_refl). projs.
  repeat (split; [done|]). apply lookup_insert_eq.
Qed.

Lemma paste_takes_first_image_witness :
  let s := run [Change [example_png]] initial in
  let s' :=
    step s (Paste (Some (example_text_clipboard ++
                         mkItem "image/jpeg" (Some example_jpeg) ::
                         [mkItem "image/png" (Some example_png)])%list)) in
  s' = step s (Paste (Some [mkItem "image/jpeg" (Some example_jpeg)])) /\
  selectedFile s' = Some example_jpeg /\ errorMessage s' = None /\
  outcome s' = Some Pending /\ inputValue s' = inputValue s /\
  images s' !! S (nextUrl s) = Some (mkImageLoad example_jpeg false).
Proof.
  apply (paste_takes_first_image [Change [example_png]] example_text_clipboard
           [mkItem "image/png" (Some example_png)]
           (mkItem "image/jpeg" (Some example_jpeg)) example_jpeg).
  - repeat constructor.
  - reflexivity.
  - reflexivity.
  - reflexivity.
Defined.

(** * The component before the decode pipeline *)

Lemma Preview_commit_same o : Preview.depsChanged o = false -> Preview.commit o = o.
Proof. unfold Preview.commit, Preview.runEffects. by intros ->. Qed.

Lemma Preview_commit_select o file :
  Preview.depsChanged o = true -> Preview.selectedFile o = Some file ->
  Preview.commit o =
    Preview.mkState (Some file) (Some (Preview.nextUrl o)) (Preview.errorMessage o)
      (Preview.inputValue o) false (Some (Preview.nextUrl o)) (S (Preview.nextUrl o))
      ({[Preview.nextUrl o]} ∪ revoked (Preview.previewCleanup o) (Preview.liveUrls o)).
Proof.
  destruct o as [sel iu em iv dc pc nu lu]; cbn. intros -> ->. by destruct pc.
Qed.

Lemma Preview_commit_clear o :
  Preview.depsChanged o = true -> Preview.selectedFile o = None ->
  Preview.commit o =
    Preview.mkState None None (Preview.errorMessage o) (Preview.inputValue o) false
      None (Preview.nextUrl o) (revoked (Preview.previewCleanup o) (Preview.liveUrls o)).
Proof.
  destruct o as [sel iu em iv dc pc nu lu]; cbn. intros -> ->. by destruct pc.
Qed.

Lemma revoked_self (o : option ObjectURL) :
  revoked o (match o with Some url => {[url]} | None => ∅ end) = ∅.
Proof.
  destruct o as [u|]; [|done]. cbn. apply set_eq. intros x.
  rewrite elem_of_difference, elem_of_singleton, elem_of_empty. tauto.
Qed.

Lemma initial_Agree : Agree Preview.initial initial.
Proof. by split. Qed.

(** Two handler results that agree, committed. *)
Lemma commit_Agree o n o1 n1 :
  Agree o n ->
  Preview.selectedFile o1 = selectedFile n1 ->
  Preview.errorMessage o1 = errorMessage n1 ->
  Preview.inputValue o1 = inputValue n1 ->
  Preview.depsChanged o1 = depsChanged n1 ->
  (depsChanged n1 = false -> selectedFile n1 = selectedFile n) ->
  Preview.imageUrl o1 = Preview.imageUrl o ->
  Preview.previewCleanup o1 = Preview.previewCleanup o ->
  Preview.nextUrl o1 = Preview.nextUrl o ->
  Preview.liveUrls o1 = Preview.liveUrls o ->
  imageUrl n1 = imageUrl n -> nextUrl n1 = nextUrl n ->
  Agree (Preview.commit o1) (commit n1).
Proof.
  intros [Hs He Hi [Hco Hcn] Hnx Hpre Hlive Hcl] Hs1 He1 Hi1 Hd1 Hkeep Hu Hp Hno Hl Hun Hnn.
  destruct (depsChanged n1) eqn:Hdeps.
  - destruct (selectedFile n1) as [file|] eqn:Hsel.
    + rewrite (Preview_commit_select o1 file Hd1 Hs1), (commit_select n1 file Hdeps Hsel).
      split; cbn; try done.
      * lia.
      * f_equal. lia.
      * by rewrite Hp, Hl, Hcl, Hlive, revoked_self, union_empty_r_L.
    + rewrite (Preview_commit_clear o1 Hd1 Hs1), (commit_clear n1 Hdeps Hsel).
      split; cbn; try done.
      * lia.
      * by rewrite Hp, Hl, Hcl, Hlive, revoked_self.
  - rewrite (Preview_commit_same o1 Hd1), (commit_same n1 Hdeps).
    split; try done; rewrite ?Hu, ?Hp, ?Hno, ?Hl, ?Hun, ?Hnn; done.
Qed.

Lemma callback_keeps s e url :
  depsChanged s = false -> callback_url e = Some url ->
  selectedFile (step s e) = selectedFile s /\ imageUrl (step s e) = imageUrl s /\
  errorMessage (step s e) = errorMessage s /\ inputValue (step s e) = inputValue s /\
  nextUrl (step s e) = nextUrl s /\ depsChanged (step s e) = false.
Proof.
  intros Hcom Hurl. rewrite (step_callback e url s Hcom Hurl).
  destruct (images s !! url) as [env|] eqn:Henv.
  - rewrite (dispatch_callback e url env s Hurl Henv). by destruct (settlement e env).
  - by rewrite (callback_not_in_flight e url s Hurl Henv).
Qed.

Lemma step_Agree o n e : Agree o n -> Agree (Preview.step o e) (step n e).
Proof.
  intros Hagree. pose proof Hagree as [Hs He Hi [Hco Hcn] Hnx Hpre Hlive Hcl].
  destruct (callback_url e) as [url|] eqn:Hurl.
  - destruct (callback_keeps n e url Hcn Hurl) as (Hs' & Hu' & He' & Hi' & Hn' & Hd').
    assert (Preview.step o e = o) as ->.
    { unfold Preview.step. destruct e; try discriminate Hurl; by apply Preview_commit_same. }
    split; rewrite ?Hs', ?Hu', ?He', ?Hi', ?Hn'; done.
  - unfold Preview.step, step.
    destruct e as [files|items| | |]; try discriminate Hurl;
      cbn [Preview.dispatch dispatch state_of].
    + unfold Preview.handleFileChange, handleFileChange.
      destruct (head files) as [file|]; [destruct (validateFile file) as [validationError|]|];
        apply (commit_Agree o n); try done;
        cbn; rewrite ?Hs, ?Hco, ?Hcn; destruct (selectedFile n); cbn; done.
    + unfold Preview.handlePaste, handlePaste.
      destruct items as [items|];
        [destruct (Nat.eqb (List.length items) 0);
         [|destruct (List.find _ items) as [imageItem|];
           [destruct (getAsFile imageItem) as [file|];
            [destruct (validateFile file) as [validationError|]|]|]]|];
        apply (commit_Agree o n); try done;
        cbn; rewrite ?Hs, ?Hco, ?Hcn; destruct (selectedFile n); cbn; done.
    + apply (commit_Agree o n); try done;
        cbn; rewrite ?Hs, ?Hco, ?Hcn; destruct (selectedFile n); cbn; done.
Qed.

Lemma run_Agree events o n :
  Agree o n -> Agree (Preview.run events o) (run events n).
Proof.
  revert o n. induction events as [|e events IH]; intros o n Hagree; [done|].
  cbn. apply IH. by apply step_Agree.
Qed.

Lemma reachable_Agree events :
  Agree (Preview.run events Preview.initial) (run events initial).
Proof. apply run_Agree, initial_Agree. Qed.

Lemma Preview_idle events :
  Preview.selectedFile (Preview.run events Preview.initial) = None <->
  Preview.imageUrl (Preview.run events Preview.initial) = None.
Proof.
  pose proof (reachable_Agree events) as [Hs _ _ _ _ Hpre _ _].
  pose proof (reachable_Selection events) as [_ Hp Hnone Hsome _].
  rewrite Hs. rewrite Hp in Hpre.
  destruct (Preview.imageUrl (Preview.run events Preview.initial)) as [u|];
    cbn in Hpre; split; try done.
  - intros Hn. destruct (Hnone Hn) as [Hpc _]. congruence.
  - intros _. destruct (selectedFile (run events initial)) as [file|]; [|done].
    destruct (Hsome file eq_refl) as (p & Hpc & _). congruence.
Qed.

(** X14. Adding the decode pipeline changed nothing of the selection
    behaviour: fed the same events, the component with the pipeline and the
    one without hold the same selected file, the same error message and the
    same file-input value, and show a preview in the same states; the later
    one has made two object URLs for each one of the earlier. *)
Theorem pipeline_preserves_selection (events : list Event) :
  let o := Preview.run events Preview.initial in
  let n := run events initial in
  Preview.selectedFile o = selectedFile n /\
  Preview.errorMessage o = errorMessage n /\
  Preview.inputValue o = inputValue n /\
  imageUrl n = (fun url => 2 * url) <$> Preview.imageUrl o /\
  nextUrl n = 2 * Preview.nextUrl o.
Proof. by destruct (reachable_Agree events). Qed.

Lemma Preview_runEffects_lag o :
  let lag := fst (Preview.runEffects o) in
  Preview.selectedFile lag = Preview.selectedFile (Preview.commit o) /\
  Preview.previewCleanup lag = Preview.previewCleanup (Preview.commit o) /\
  Preview.liveUrls lag = Preview.liveUrls (Preview.commit o) /\
  Preview.imageUrl lag = Preview.imageUrl o.
Proof.
  destruct o as [sel iu em iv dc pc nu lu].
  destruct dc, sel, pc;
    cbv [Preview.commit Preview.runEffects fold_left fst snd Preview.previewEffect
         Preview.runPreviewCleanup Preview.createObjectURL Preview.revokeObjectURL
         Preview.setImageUrl Preview.setDepsChanged Preview.setPreviewCleanup
         Preview.selectedFile Preview.imageUrl Preview.errorMessage Preview.inputValue
         Preview.depsChanged Preview.previewCleanup Preview.nextUrl Preview.liveUrls];
    repeat split; reflexivity.
Qed.

Lemma Preview_dispatch_imageUrl o e :
  Preview.imageUrl (Preview.dispatch e o) = Preview.imageUrl o.
Proof.
  destruct e as [files|items| | |]; cbn [Preview.dispatch]; try done.
  - unfold Preview.handleFileChange. destruct (head files) as [file|]; [|done].
    by destruct (validateFile file).
  - unfold Preview.handlePaste. destruct items as [items|]; [|done].
    destruct (Nat.eqb (List.length items) 0); [done|].
    destruct (List.find _ items) as [imageItem|]; [|done].
    destruct (getAsFile imageItem) as [file|]; [|done].
    by destruct (validateFile file).
Qed.

(** The settled states of the earlier component. *)
Lemma Preview_settled o n :
  Agree o n -> Selection n ->
  (forall file, Preview.selectedFile o = Some file -> validateFile file = None) /\
  (Preview.selectedFile o = None <-> Preview.previewCleanup o = None) /\
  Preview.liveUrls o =
    match Preview.previewCleanup o with Some url => {[url]} | None => ∅ end /\
  Preview.imageUrl o = Preview.previewCleanup o.
Proof.
  intros [Hs _ _ _ _ Hpre Hlive Hcl] [Hvalid Hp Hnone Hsome _].
  split; [|split; [|split]].
  - intros file Hfile. rewrite Hs in Hfile. by apply Hvalid.
  - rewrite Hs, Hcl. rewrite Hp in Hpre.
    destruct (Preview.imageUrl o) as [u|]; cbn in Hpre; split; try done.
    + intros Hn. destruct (Hnone Hn) as [Hpc _]. congruence.
    + intros _. destruct (selectedFile n) as [file|]; [|done].
      destruct (Hsome file eq_refl) as (p & Hpc & _). congruence.
  - by rewrite Hcl.
  - by rewrite Hcl.
Qed.

(** X15. In the earlier component, in the settled state after any events
    and between an event's effect and the render of its update: a selected
    file has passed validation, the preview effect holds a URL exactly
    while a file is selected, and that URL is the only live one.  In the
    settled state the preview cell holds that URL; until the render after
    the effect the cell keeps its previous value. *)
Theorem Preview_invariant (events : list Event) (e : Event) (o' : Preview.State) :
  let o := Preview.run events Preview.initial in
  o' = o \/ o' = Preview.lagging o e ->
  (forall file, Preview.selectedFile o' = Some file -> validateFile file = None) /\
  (Preview.selectedFile o' = None <-> Preview.previewCleanup o' = None) /\
  Preview.liveUrls o' =
    match Preview.previewCleanup o' with Some url => {[url]} | None => ∅ end /\
  (o' = o -> Preview.imageUrl o' = Preview.previewCleanup o') /\
  Preview.imageUrl (Preview.lagging o e) = Preview.imageUrl o.
Proof.
  intros o Ho'.
  pose proof (reachable_Agree events) as Hagree. fold o in Hagree.
  pose proof (reachable_Selection events) as Hsel.
  pose proof (reachable_Inv events) as Hinv.
  destruct (Preview_runEffects_lag (Preview.dispatch e o)) as (Hls & Hlp & Hll & Hlu).
  fold (Preview.lagging o e) in Hls, Hlp, Hll, Hlu.
  fold (Preview.step o e) in Hls, Hlp, Hll.
  rewrite Preview_dispatch_imageUrl in Hlu.
  destruct Ho' as [-> | ->].
  - destruct (Preview_settled o _ Hagree Hsel) as (H1 & H2 & H3 & H4).
    split; [exact H1|]. split; [exact H2|]. split; [exact H3|].
    split; [intros _; exact H4 | exact Hlu].
  - destruct (Preview_settled (Preview.step o e) _ (step_Agree o _ e Hagree)
                (step_Selection _ e Hinv Hsel)) as (H1 & H2 & H3 & _).
    rewrite Hls, Hlp, Hll.
    split; [exact H1|]. split; [exact H2|]. split; [exact H3|].
    split; [|exact Hlu].
    intros Heq. rewrite <- Hlp, Heq.
    by destruct (Preview_settled o _ Hagree Hsel) as (_ & _ & _ & H4).
Qed.

Lemma Preview_invariant_witness :
  let o := Preview.run [Change [example_png]] Preview.initial in
  let lag := Preview.lagging o (Change [example_jpeg]) in
  Preview.imageUrl lag = Some 0 /\ Preview.previewCleanup lag = Some 1 /\
  Preview.liveUrls lag = {[1]}.
Proof.
  destruct (Preview_invariant [Change [example_png]] (Change [example_jpeg])
              (Preview.lagging (Preview.run [Change [example_png]] Preview.initial)
                 (Change [example_jpeg])))
    as (_ & _ & Hlive & _ & Hcell).
  - right. reflexivity.
  - split; [rewrite Hcell; vm_compute; reflexivity|].
    split; [vm_compute; reflexivity|].
    rewrite Hlive. vm_compute. reflexivity.
Defined.

(** X16. Reset in the earlier component, from any of its states: the
    selection, the preview, the error message and the file input are
    emptied and no object URL stays live. *)
Theorem Preview_reset (events : list Event) :
  let o := Preview.step (Preview.run events Preview.initial) ResetClick in
  Preview.selectedFile o = None /\ Preview.imageUrl o = None /\
  Preview.errorMessage o = None /\ Preview.inputValue o = "" /\
  Preview.liveUrls o = ∅.
Proof.
  cbv zeta. pose proof (reachable_Agree events) as [_ _ _ [Hco _] _ _ Hlive Hcl].
  pose proof (Preview_idle events) as Hidle.
  set (o := Preview.run events Preview.initial) in *.
  unfold Preview.step. cbn [Preview.dispatch].
  destruct (Preview.selectedFile o) as [file|] eqn:Hsel.
  - rewrite Preview_commit_clear; [|cbn; by rewrite Hco, Hsel | done].
    cbn. repeat (split; [done|]). by rewrite Hcl, Hlive, revoked_self.
  - rewrite Preview_commit_same by (cbn; by rewrite Hco, Hsel).
    cbn. rewrite Hlive. destruct Hidle as [Hnone _]. by rewrite (Hnone eq_refl).
Qed.

Example Preview_select_then_reset :
  let o := Preview.run [Change [example_png]; Paste None] Preview.initial in
  Preview.imageUrl o = Some 0 /\ Preview.errorMessage o = Some MSG_CLIPBOARD_NO_ITEMS /\
  Preview.step o ResetClick =
    Preview.mkState None None None "" false None 1 (Preview.liveUrls Preview.initial).
Proof. vm_compute. repeat split. Qed.

(** * The link *)

(** X17. The "open link" anchor appears only under a decoded text that is
    itself on screen and that [isHttpUrl] accepts; never while the decode
    is pending, never beside a decode error or the placeholder. *)
Theorem link_only_for_shown_http_text (events : list Event)
    (URL_new : string -> option URL) :
  let v := render URL_new (run events initial) in
  view_link v = true ->
  (exists text, view_decodeResult v = Some text /\ text <> "" /\
     decodeResult (run events initial) = Some text /\ isHttpUrl URL_new text = true) /\
  view_pending v = false /\ view_decodeError v = None /\ view_placeholder v = false.
Proof.
  pose proof (reachable_Inv events) as [_ HD].
  destruct HD as [_ _ _ Hone _].
  destruct (run events initial) as [sel iu em dr de dec iv dc pc dcl nu lu im]; projs.
  cbv zeta. unfold render; projs.
  cbn [view_link view_pending view_decodeError view_decodeResult view_placeholder].
  destruct sel as [file|]; [|discriminate].
  destruct dec; [discriminate|].
  destruct dr as [[|c text]|]; try discriminate.
  destruct Hone as [Hr|He]; [discriminate|]. rewrite He.
  cbn. intros Hlink. split; [|done]. by eexists.
Qed.

Lemma link_only_for_shown_http_text_witness :
  let s := run [Change [example_png];
                ImgLoad 1 21 21 true true (Some "https://example.com/x")] initial in
  let v := render Whatwg.scheme_only_parser s in
  (exists text, view_decodeResult v = Some text /\ text <> "" /\
     decodeResult s = Some text /\ isHttpUrl Whatwg.scheme_only_parser text = true) /\
  view_pending v = false /\ view_decodeError v = None /\ view_placeholder v = false.
Proof.
  apply (link_only_for_shown_http_text
           [Change [example_png]; ImgLoad 1 21 21 true true (Some "https://example.com/x")]
           Whatwg.scheme_only_parser).
  vm_compute. reflexivity.
Defined.

Example no_link_for_javascript_url :
  let s := run [Change [example_png];
                ImgLoad 1 21 21 true true (Some "javascript:alert(1)")] initial in
  view_decodeResult (render Whatwg.scheme_only_parser s) = Some "javascript:alert(1)" /\
  view_link (render Whatwg.scheme_only_parser s) = false.
Proof. vm_compute. split; reflexivity. Qed.

(** * Further instances *)

Lemma formatBytes_rounds_witness :
  (mb_hundredths 131072 <= mb_hundredths 5242880)%N.
Proof.
  destruct (formatBytes_rounds 131072) as (_ & _ & _ & Hmono).
  apply Hmono. lia.
Defined.

Lemma fileMeta_shown_witness :
  exists meta,
    fileMeta (run [Paste (Some [mkItem "image/png" (Some (mkFile "" "image/png" 131072))])]
                initial) = Some meta /\
    meta_name meta = "clipboard-image".
Proof.
  pose proof (fileMeta_shown
                [Paste (Some [mkItem "image/png" (Some (mkFile "" "image/png" 131072))])])
    as Hshown.
  cbv zeta in Hshown.
  destruct (fileMeta _) as [meta|] eqn:Hmeta; [|discriminate Hshown].
  exists meta. split; [reflexivity|].
  destruct Hshown as [(file & Hsel & _ & _ & _ & Hfallback) _].
  apply Hfallback. vm_compute in Hsel. by injection Hsel as <-.
Defined.
